(** * lite_led: a tick-driven LED effect engine

    Shallow embedding of [src/lite_led.c] with the types of
    [inc/lite_led.h] and the constants of [inc/lite_led_cfg.h].

    - C unsigned integers ([uint8_t], [uint32_t], [size_t], the enums) are
      [Z]; every decrement in the source is guarded by a test for zero, so
      no wrap-around is reachable and none is written.
    - C [float] is IEEE-754 binary32 and [double] is binary64, both taken
      from the Standard Library's [SpecFloat] at precision 24/53, with
      round-to-nearest-even after every operation.
    - [g_led_list] is a [list led_dev_t] updated in place by index.
    - The callbacks are function pointers: [None] is [NULL]; the calls the
      tick handler makes are collected in a trace. *)

From Stdlib Require Import ZArith Bool Lia Reals Lra.
From Stdlib Require Import Floats.SpecFloat.
From stdpp Require Import base tactics option list.

Local Open Scope Z_scope.

(** ** Floating point *)

Definition f32_add : spec_float -> spec_float -> spec_float := SFadd 24 128.
Definition f32_mul : spec_float -> spec_float -> spec_float := SFmul 24 128.
Definition f32_div : spec_float -> spec_float -> spec_float := SFdiv 24 128.
Definition f64_sub : spec_float -> spec_float -> spec_float := SFsub 53 1024.
Definition f64_mul : spec_float -> spec_float -> spec_float := SFmul 53 1024.
Definition f64_div : spec_float -> spec_float -> spec_float := SFdiv 53 1024.

(** Conversions between the two formats, and from an unsigned integer.
    [SFcompare] compares canonical mantissa/exponent pairs of one format,
    so a [float] operand of a [double] comparison is promoted first. *)
Definition f32_of_Z (z : Z) : spec_float := binary_normalize 24 128 z 0 false.
Definition f64_of_Z (z : Z) : spec_float := binary_normalize 53 1024 z 0 false.

Definition f64_to_f32 (x : spec_float) : spec_float :=
  match x with
  | S754_finite s m e => binary_normalize 24 128 (cond_Zopp s (Zpos m)) e s
  | _ => x
  end.

Definition f32_to_f64 (x : spec_float) : spec_float :=
  match x with
  | S754_finite s m e => binary_normalize 53 1024 (cond_Zopp s (Zpos m)) e s
  | _ => x
  end.

Definition f32_zero : spec_float := S754_zero false.

(** [M_PI] is the binary64 number nearest to 3.14159265358979323846. *)
Definition M_PI : spec_float := S754_finite false 7074237752028440 (-51).
Definition LED_PI : spec_float := M_PI.
Definition LED_2PI : spec_float := f64_mul (f64_of_Z 2) M_PI.

(** The integral part of [m * 2^e], towards zero. *)
Definition trunc_mag (m : positive) (e : Z) : Z :=
  match e with
  | Zneg p => Z.shiftr (Zpos m) (Zpos p)
  | _ => Z.shiftl (Zpos m) e
  end.

(** What is left to the target: the value of a conversion [(size_t)x]
    where the source relies on it, that is for NaN, the infinities and
    [x <= -1], where C leaves the conversion undefined, and for an integral
    part beyond 32 bits, which fits [size_t] on some targets only.  (The
    source stores [LED_BLOCK_FOREVER = 0xFFFFFFFF] in a [size_t], so 32
    bits are there.) *)
Class Platform := {
  size_t_of_undef : spec_float -> Z
}.

(** A 64-bit target whose conversion instruction saturates. *)
Definition saturating64 : Platform :=
  {| size_t_of_undef := fun x =>
       match x with
       | S754_infinity false => 2 ^ 64 - 1
       | S754_finite false m e => Z.min (trunc_mag m e) (2 ^ 64 - 1)
       | _ => 0
       end |}.

Definition f32_to_size_t `{Platform} (x : spec_float) : Z :=
  match x with
  | S754_zero _ => 0
  | S754_finite s m e =>
      let t := trunc_mag m e in
      if t =? 0 then 0
      else if s then size_t_of_undef x
      else if t <=? 0xFFFFFFFF then t
      else size_t_of_undef x
  | _ => size_t_of_undef x
  end.

(** ** Constants of lite_led_cfg.h and lite_led.h *)

Definition LED_POLL_PERIOD_MS : Z := 100.

Definition LED_GREEN : Z := 0.
Definition LED_BLUE : Z := 1.
Definition LED_RED : Z := 2.
Definition LED_WHITE : Z := 3.
Definition LED_MAX : Z := 4.
Definition LED_INVALID : Z := 5.

Definition LED_NUM : Z := LED_MAX.
Definition LED_MAX_BRIGHTNESS : Z := 100.
Definition LED_MIN_BRIGHTNESS : Z := 0.
Definition LED_BLOCK_FOREVER : Z := 0xFFFFFFFF.

Definition LED_ERROR_NONE : Z := 0.
Definition LED_ERROR_PARA_INVALID : Z := -1.
Definition LED_ERROR_MODE_INVALID : Z := -2.
Definition LED_ERROR_ALTERNATE_ID : Z := -3.

(** [led_mode_e] and [led_state_e]: a C enum holds any value of its
    integer type, so an unrecognized mode is representable. *)
Definition LED_MODE_OFF : Z := 0.
Definition LED_MODE_ON : Z := 1.
Definition LED_MODE_BLINK : Z := 2.
Definition LED_MODE_BREATH : Z := 3.
Definition LED_MODE_FADE_IN : Z := 4.
Definition LED_MODE_FADE_OUT : Z := 5.
Definition LED_MODE_ALTERNATE : Z := 6.

Definition LED_STATE_OFF : Z := 0.
Definition LED_STATE_ON : Z := 1.

(** C's [!x] on an integer. *)
Definition lnot (x : Z) : Z := if x =? 0 then 1 else 0.

(** ** Types of lite_led.h *)

(** A non-NULL function address. *)
Definition fn_ptr : Type := positive.

Record led_cfg_t := mk_cfg {
  mode : Z;
  alter_id : Z;
  on_ms : Z;
  off_ms : Z;
  fade_ms : Z;
  alternate_ms : Z;
  duration_ms : Z
}.

(** [led_inner_cfg_t]; its [mode] and [alter_id] are [tick_mode] and
    [tick_alter_id] here, field names being global in Rocq. *)
Record led_inner_cfg_t := mk_inner {
  tick_mode : Z;
  tick_alter_id : Z;
  on_tick : Z;
  off_tick : Z;
  fade_tick : Z;
  alternate_tick : Z;
  duration_tick : Z
}.

Record led_status_t := mk_status {
  percent : Z;
  state : Z;
  next_tick : Z;
  remain_tick : Z;
  phase : spec_float;
  phase_step : spec_float;
  dur_timeout : bool
}.

(** [led_dev_t]; its [id] is [dev_id] here, [id] being the parameter of
    the API functions. *)
Record led_dev_t := mk_dev {
  dev_id : Z;
  cfg : led_inner_cfg_t;
  stat : led_status_t;
  set_percent_cb : option fn_ptr;
  dur_timeout_cb : option fn_ptr
}.

(** Field assignments. *)
Definition set_tick_mode (v : Z) (c : led_inner_cfg_t) : led_inner_cfg_t :=
  mk_inner v (tick_alter_id c) (on_tick c) (off_tick c) (fade_tick c)
           (alternate_tick c) (duration_tick c).

Definition set_percent (v : Z) (s : led_status_t) : led_status_t :=
  mk_status v (state s) (next_tick s) (remain_tick s) (phase s) (phase_step s)
            (dur_timeout s).
Definition set_state (v : Z) (s : led_status_t) : led_status_t :=
  mk_status (percent s) v (next_tick s) (remain_tick s) (phase s) (phase_step s)
            (dur_timeout s).
Definition set_next_tick (v : Z) (s : led_status_t) : led_status_t :=
  mk_status (percent s) (state s) v (remain_tick s) (phase s) (phase_step s)
            (dur_timeout s).
Definition set_remain_tick (v : Z) (s : led_status_t) : led_status_t :=
  mk_status (percent s) (state s) (next_tick s) v (phase s) (phase_step s)
            (dur_timeout s).
Definition set_phase (v : spec_float) (s : led_status_t) : led_status_t :=
  mk_status (percent s) (state s) (next_tick s) (remain_tick s) v (phase_step s)
            (dur_timeout s).
Definition set_phase_step (v : spec_float) (s : led_status_t) : led_status_t :=
  mk_status (percent s) (state s) (next_tick s) (remain_tick s) (phase s) v
            (dur_timeout s).

Definition upd_cfg (f : led_inner_cfg_t -> led_inner_cfg_t) (d : led_dev_t)
  : led_dev_t :=
  mk_dev (dev_id d) (f (cfg d)) (stat d) (set_percent_cb d) (dur_timeout_cb d).
Definition upd_stat (f : led_status_t -> led_status_t) (d : led_dev_t)
  : led_dev_t :=
  mk_dev (dev_id d) (cfg d) (f (stat d)) (set_percent_cb d) (dur_timeout_cb d).

(** What [memset (.., 0, ..)] leaves. *)
Definition status_zero : led_status_t :=
  mk_status 0 0 0 0 f32_zero f32_zero false.
Definition inner_zero : led_inner_cfg_t := mk_inner 0 0 0 0 0 0 0.
Definition dev_zero : led_dev_t := mk_dev 0 inner_zero status_zero None None.

(** [static led_dev_t g_led_list[LED_NUM] = {0}]. *)
Definition g_led_list_init : list led_dev_t := replicate (Z.to_nat LED_NUM) dev_zero.

(** [g_led_list[i]] and [g_led_list[i] = d]. *)
Definition led_at (g : list led_dev_t) (i : Z) : led_dev_t :=
  default dev_zero (g !! Z.to_nat i).
Definition led_store (g : list led_dev_t) (i : Z) (d : led_dev_t)
  : list led_dev_t :=
  <[Z.to_nat i := d]> g.

(** ** The brightness table *)

Definition LED_TABLE_SIZE : Z := 128.

(** The initializer lists 128 values for [LED_TABLE_SIZE + 1] elements; C
    fills the last element with zero. *)
Definition g_led_sin_table : list Z :=
  [  0;  1;  2;  3;  4;  5;  7;  8; 10; 11; 13; 15; 16; 18; 20; 22;
    24; 26; 28; 30; 32; 34; 37; 39; 41; 44; 46; 49; 51; 54; 56; 59;
    61; 64; 67; 69; 72; 75; 77; 80; 83; 86; 88; 91; 94; 97;100;100;
   100;100;100;100;100;100;100;100;100;100;100;100;100;100;100;100;
   100;100;100;100;100;100;100;100;100;100;100;100;100;100;100;100;
    97; 94; 91; 88; 86; 83; 80; 77; 75; 72; 69; 67; 64; 61; 59; 56;
    54; 51; 49; 46; 44; 41; 39; 37; 34; 32; 30; 28; 26; 24; 22; 20;
    18; 16; 15; 13; 11; 10;  8;  7;  5;  4;  3;  2;  1;  0;  0;  0]
  ++ [0].

Definition lut_step : spec_float :=
  f64_to_f32 (f64_div LED_2PI (f64_of_Z LED_TABLE_SIZE)).

Definition lite_led_get_percent_from_phase `{Platform} (phase : spec_float) : Z :=
  let step := lut_step in
  let index := f32_to_size_t (f32_div phase step) in
  let index := if LED_TABLE_SIZE <? index then LED_TABLE_SIZE else index in
  default 0 (g_led_sin_table !! Z.to_nat index).

(** ** The registry operations *)

(** [lite_led_init]: the return code and the registry it leaves. *)
Definition lite_led_init (g : list led_dev_t) (id : Z) (cb : option fn_ptr)
  : Z * list led_dev_t :=
  match cb with
  | None => (-1, g)
  | Some f =>
      if LED_NUM <=? id then (-1, g)
      else (LED_ERROR_NONE, led_store g id (mk_dev id inner_zero status_zero (Some f) None))
  end.

(** The phase set-up of the BREATH / FADE_IN / FADE_OUT case of
    [lite_led_write]. *)
Definition write_phase_setup (c : led_cfg_t) (s : led_status_t) : led_status_t :=
  let step :=
    f32_div (f32_mul (f64_to_f32 LED_PI) (f32_of_Z LED_POLL_PERIOD_MS))
            (f32_of_Z (fade_ms c)) in
  let step :=
    if SFleb step f32_zero
    then f32_div (f64_to_f32 LED_PI) (f32_of_Z LED_MAX_BRIGHTNESS)
    else step in
  if mode c =? LED_MODE_FADE_OUT
  then set_phase_step (SFopp step)
         (set_phase (f64_to_f32 LED_PI) (set_percent LED_MAX_BRIGHTNESS s))
  else set_phase_step step
         (set_phase f32_zero (set_percent LED_MIN_BRIGHTNESS s)).

(** The body of [lite_led_write] on the slot [led = &g_led_list[id]]:
    the return code and the slot as the call leaves it.  The slot is
    assigned field by field before the [switch] on the mode, as in the
    source. *)
Definition write_record (led : led_dev_t) (id : Z) (c : led_cfg_t)
  : Z * led_dev_t :=
  let icfg :=
    mk_inner (mode c) (alter_id c)
             (on_ms c / LED_POLL_PERIOD_MS)
             (off_ms c / LED_POLL_PERIOD_MS)
             (fade_ms c / LED_POLL_PERIOD_MS)
             (alternate_ms c / LED_POLL_PERIOD_MS)
             (duration_ms c / LED_POLL_PERIOD_MS) in
  let st := set_remain_tick (duration_tick icfg) status_zero in
  let led := mk_dev (dev_id led) icfg st (set_percent_cb led) (dur_timeout_cb led) in
  if (mode c =? LED_MODE_ON) || (mode c =? LED_MODE_OFF)
     || (mode c =? LED_MODE_BLINK)
  then (LED_ERROR_NONE, led)
  else if (mode c =? LED_MODE_BREATH) || (mode c =? LED_MODE_FADE_IN)
          || (mode c =? LED_MODE_FADE_OUT)
  then (LED_ERROR_NONE, upd_stat (write_phase_setup c) led)
  else if mode c =? LED_MODE_ALTERNATE
  then if id =? alter_id c
       then (LED_ERROR_ALTERNATE_ID, led)
       else (LED_ERROR_NONE, led)
  else (LED_ERROR_MODE_INVALID, led).

(** [lite_led_write]; [cfg = None] is the NULL pointer. *)
Definition lite_led_write (g : list led_dev_t) (id : Z) (cfg : option led_cfg_t)
  : Z * list led_dev_t :=
  match cfg with
  | None => (LED_ERROR_PARA_INVALID, g)
  | Some c =>
      if LED_MAX <=? id then (LED_ERROR_PARA_INVALID, g)
      else
        let r := write_record (led_at g id) id c in
        (fst r, led_store g id (snd r))
  end.

(** [lite_led_read]; [status] is what the out-pointer refers to, [None]
    for NULL.  The registry is only read. *)
Definition lite_led_read (g : list led_dev_t) (id : Z) (status : option led_status_t)
  : Z * option led_status_t :=
  match status with
  | None => (LED_ERROR_PARA_INVALID, None)
  | Some old =>
      if LED_NUM <=? id then (LED_ERROR_PARA_INVALID, Some old)
      else (LED_ERROR_NONE, Some (stat (led_at g id)))
  end.

(** ** The tick handler *)

(** The calls the engine can make through a record's function pointers. *)
Inductive cb_call :=
| Call_set_percent (cb : fn_ptr) (percent : Z)
| Call_dur_timeout (cb : fn_ptr).

Definition percent_of_state (s : Z) : Z :=
  if s =? LED_STATE_ON then LED_MAX_BRIGHTNESS else LED_MIN_BRIGHTNESS.

(** The FADE_IN / FADE_OUT / BREATH case of the [switch]. *)
Definition fade_handling `{Platform} (m : Z) (s : led_status_t) : led_status_t :=
  let s := set_phase (f32_add (phase s) (phase_step s)) s in
  let s :=
    if m =? LED_MODE_BREATH then
      if SFleb LED_2PI (f32_to_f64 (phase s))
      then set_phase (f64_to_f32 (f64_sub (f32_to_f64 (phase s)) LED_2PI)) s
      else s
    else if m =? LED_MODE_FADE_IN then
      if SFleb LED_PI (f32_to_f64 (phase s))
      then set_next_tick LED_BLOCK_FOREVER (set_phase (f64_to_f32 LED_PI) s)
      else s
    else if m =? LED_MODE_FADE_OUT then
      if SFleb (phase s) f32_zero
      then set_next_tick LED_BLOCK_FOREVER (set_phase f32_zero s)
      else s
    else s in
  let s := set_percent (lite_led_get_percent_from_phase (phase s)) s in
  if LED_MAX_BRIGHTNESS <=? percent s then set_percent LED_MAX_BRIGHTNESS s else s.

(** The [switch (led->cfg.mode)] of [lite_led_poll_handle] for the record
    at index [i]; [g] holds that record as it is when the switch is
    entered, so a peer read of the record's own slot sees it. *)
Definition mode_handling `{Platform} (g : list led_dev_t) (i : Z) : led_dev_t :=
  let led := led_at g i in
  let m := tick_mode (cfg led) in
  if m =? LED_MODE_OFF then
    upd_stat (fun s => set_next_tick LED_BLOCK_FOREVER
                (set_percent LED_MIN_BRIGHTNESS (set_state LED_STATE_OFF s))) led
  else if m =? LED_MODE_ON then
    upd_stat (fun s => set_next_tick LED_BLOCK_FOREVER
                (set_percent LED_MAX_BRIGHTNESS (set_state LED_STATE_ON s))) led
  else if m =? LED_MODE_BLINK then
    upd_stat (fun s =>
      let s' :=
        if state s =? LED_STATE_OFF
        then set_percent LED_MAX_BRIGHTNESS (set_next_tick (on_tick (cfg led)) s)
        else set_percent LED_MIN_BRIGHTNESS (set_next_tick (off_tick (cfg led)) s) in
      set_state (lnot (state s')) s') led
  else if (m =? LED_MODE_FADE_IN) || (m =? LED_MODE_FADE_OUT)
          || (m =? LED_MODE_BREATH) then
    upd_stat (fade_handling m) led
  else if m =? LED_MODE_ALTERNATE then
    if LED_NUM <=? tick_alter_id (cfg led) then led
    else
      upd_stat (fun s =>
        let s := set_next_tick (alternate_tick (cfg led)) s in
        let s :=
          if dev_id led <? tick_alter_id (cfg led)
          then set_state (lnot (state s)) s
          else set_state (lnot (state (stat (led_at g (tick_alter_id (cfg led)))))) s in
        set_percent (percent_of_state (state s)) s) led
  else led.

(** The body of the [for] loop for the record at index [i]: the record
    as the iteration leaves it and the calls made.  Each [continue] of the
    source is a branch that stops here. *)
Definition poll_record `{Platform} (g : list led_dev_t) (i : Z)
  : led_dev_t * list cb_call :=
  let led := led_at g i in
  match set_percent_cb led with
  | None => (led, [])
  | Some cb =>
      let led1 :=
        if remain_tick (stat led) =? 0 then led
        else upd_stat (set_remain_tick (remain_tick (stat led) - 1)) led in
      if negb (remain_tick (stat led) =? 0) && (remain_tick (stat led1) =? 0)
      then (upd_stat (set_next_tick 0) (upd_cfg (set_tick_mode LED_MODE_OFF) led1), [])
      else if next_tick (stat led1) =? LED_BLOCK_FOREVER
      then (led1, [])
      else
        let led2 :=
          if next_tick (stat led1) =? 0 then led1
          else upd_stat (set_next_tick (next_tick (stat led1) - 1)) led1 in
        if negb (next_tick (stat led1) =? 0) && negb (next_tick (stat led2) =? 0)
        then (led2, [])
        else
          let led3 := mode_handling (led_store g i led2) i in
          (led3, [Call_set_percent cb (percent (stat led3))])
  end.

(** One iteration, on the registry. *)
Definition poll_led `{Platform} (g : list led_dev_t) (i : Z)
  : list led_dev_t * list cb_call :=
  (led_store g i (fst (poll_record g i)), snd (poll_record g i)).

(** [for (i = 0; i < LED_NUM; i++)], the calls tagged with the index of
    the record that made them. *)
Definition poll_step `{Platform} (acc : list led_dev_t * list (Z * cb_call)) (i : nat)
  : list led_dev_t * list (Z * cb_call) :=
  let '(g', calls) := poll_led (fst acc) (Z.of_nat i) in
  (g', snd acc ++ map (pair (Z.of_nat i)) calls).

Definition lite_led_poll_handle `{Platform} (g : list led_dev_t)
  : list led_dev_t * list (Z * cb_call) :=
  fold_left poll_step (seq 0 (Z.to_nat LED_NUM)) (g, []).

(** ** Running the engine *)

(** The registry after [n] calls of the tick handler. *)
Fixpoint ticks `{Platform} (n : nat) (g : list led_dev_t) : list led_dev_t :=
  match n with
  | O => g
  | S k => fst (lite_led_poll_handle (ticks k g))
  end.

(** The calls made through record [i]'s pointers during tick [n]
    (ticks are counted from 1). *)
Definition calls_of (i : Z) (tr : list (Z * cb_call)) : list cb_call :=
  map snd (filter (fun c => fst c = i) tr).

Definition tick_calls `{Platform} (n : nat) (g : list led_dev_t) (i : Z) : list cb_call :=
  calls_of i (snd (lite_led_poll_handle (ticks (pred n) g))).

(** [lite_led_init (id, cb)] followed by [lite_led_write (id, &c)]. *)
Definition configured (g : list led_dev_t) (id : Z) (cb : fn_ptr) (c : led_cfg_t)
  : list led_dev_t :=
  snd (lite_led_write (snd (lite_led_init g id (Some cb))) id (Some c)).

(** The handler's effect on a record that no ALTERNATE peer read reaches:
    the engine run on a registry holding that record alone. *)
Definition solo_tick `{Platform} (d : led_dev_t) : led_dev_t :=
  fst (poll_record [d] 0).
Definition solo_calls `{Platform} (d : led_dev_t) : list cb_call :=
  snd (poll_record [d] 0).
Fixpoint solo_ticks `{Platform} (n : nat) (d : led_dev_t) : led_dev_t :=
  match n with
  | O => d
  | S k => solo_tick (solo_ticks k d)
  end.

(** The records after each of the next [n] ticks, and the calls of each. *)
Fixpoint solo_trace `{Platform} (n : nat) (d : led_dev_t)
  : list (led_dev_t * list cb_call) :=
  match n with
  | O => []
  | S k => (solo_tick d, solo_calls d) :: solo_trace k (solo_tick d)
  end.

Definition with_remain (r : Z) (d : led_dev_t) : led_dev_t :=
  upd_stat (set_remain_tick r) d.

(** What is seen of record [i] at tick [n]: its brightness and event
    countdown after the tick, and the calls made during it. *)
Definition observed `{Platform} (n : nat) (g : list led_dev_t) (i : Z)
  : Z * Z * list cb_call :=
  (percent (stat (led_at (ticks n g) i)),
   next_tick (stat (led_at (ticks n g) i)),
   tick_calls n g i).

Definition observed_solo (x : led_dev_t * list cb_call) : Z * Z * list cb_call :=
  (percent (stat (fst x)), next_tick (stat (fst x)), snd x).




(** The quotient [(float)LED_PI * LED_POLL_PERIOD_MS / (float)fade_ms]
    that [lite_led_write] computes first. *)
Definition fade_quotient (ms : Z) : spec_float :=
  f32_div (f32_mul (f64_to_f32 LED_PI) (f32_of_Z LED_POLL_PERIOD_MS)) (f32_of_Z ms).

(** The value the source substitutes when the quotient is not positive. *)
Definition fade_substitute : spec_float :=
  f32_div (f64_to_f32 LED_PI) (f32_of_Z LED_MAX_BRIGHTNESS).

(** Finite, and greater than [(float)LED_PI]. *)
Definition beyond_half_cycle (x : spec_float) : bool :=
  match x with
  | S754_finite false _ _ => SFltb (f64_to_f32 LED_PI) x
  | _ => false
  end.

Definition fade_mode (m : Z) : Prop :=
  m = LED_MODE_BREATH \/ m = LED_MODE_FADE_IN \/ m = LED_MODE_FADE_OUT.

(** The event countdown of an ALTERNATE pair after [n] ticks: a dispatch
    reloads it with the period [T], and it runs down in between. *)
Definition alt_countdown (T : Z) (n : nat) : Z :=
  match n with
  | O => 0
  | S k => T - Z.of_nat k mod Z.max T 1
  end.

(** A lifetime of [r] ticks, zero for none, has not run out at tick [n]. *)
Definition alive (r : Z) (n : nat) : Prop := r = 0 \/ Z.of_nat n < r.

Definition lifetime_left (r : Z) (n : nat) : Z :=
  if r =? 0 then 0 else r - Z.of_nat n.

(** A live ALTERNATE record after [n] ticks. *)
Record alt_record (d : led_dev_t) (me peer : Z) (cb : fn_ptr) (T r : Z) (n : nat)
  : Prop := {
  ar_cb : set_percent_cb d = Some cb;
  ar_id : dev_id d = me;
  ar_mode : tick_mode (cfg d) = LED_MODE_ALTERNATE;
  ar_peer : tick_alter_id (cfg d) = peer;
  ar_period : alternate_tick (cfg d) = T;
  ar_remain : remain_tick (stat d) = lifetime_left r n;
  ar_next : next_tick (stat d) = alt_countdown T n
}.

(** [led->cfg.duration_tick = v]. *)
Definition set_duration_tick (v : Z) (c : led_inner_cfg_t) : led_inner_cfg_t :=
  mk_inner (tick_mode c) (tick_alter_id c) (on_tick c) (off_tick c) (fade_tick c)
           (alternate_tick c) v.

(** A BLINK record [n + 1] ticks after the write, in terms of the position
    [m] of tick [n + 1] within the period: on for [max on_tick 1] ticks,
    then off for [max off_tick 1]. *)
Record blink_at (d : led_dev_t) (cb : fn_ptr) (a b : Z) (n : nat) : Prop := {
  bl_cb : set_percent_cb d = Some cb;
  bl_mode : tick_mode (cfg d) = LED_MODE_BLINK;
  bl_on : on_tick (cfg d) = a;
  bl_off : off_tick (cfg d) = b;
  bl_remain : remain_tick (stat d) = 0;
  bl_state :
    state (stat d)
    = (if Z.of_nat n mod (Z.max a 1 + Z.max b 1) <? Z.max a 1
       then LED_STATE_ON else LED_STATE_OFF);
  bl_percent :
    percent (stat d)
    = (if Z.of_nat n mod (Z.max a 1 + Z.max b 1) <? Z.max a 1
       then LED_MAX_BRIGHTNESS else LED_MIN_BRIGHTNESS);
  bl_next :
    next_tick (stat d)
    = (let m := Z.of_nat n mod (Z.max a 1 + Z.max b 1) in
       if m <? Z.max a 1 then a - m else b - (m - Z.max a 1))
}.

(** The calls of tick [n + 1] of a BLINK record. *)
Definition blink_calls (cb : fn_ptr) (a b : Z) (n : nat) : list cb_call :=
  let m := Z.of_nat n mod (Z.max a 1 + Z.max b 1) in
  if m =? 0 then [Call_set_percent cb LED_MAX_BRIGHTNESS]
  else if m =? Z.max a 1 then [Call_set_percent cb LED_MIN_BRIGHTNESS]
  else [].

(** The registry as the loop finds it when it reaches index [k]. *)
Definition poll_prefix `{Platform} (k : nat) (g : list led_dev_t)
  : list led_dev_t * list (Z * cb_call) :=
  fold_left poll_step (seq 0 k) (g, []).

(** The registry record [i] is processed on, within one call. *)
Definition seen_by `{Platform} (g : list led_dev_t) (i : Z) : list led_dev_t :=
  fst (poll_prefix (Z.to_nat i) g).

Definition set_duration_ms (v : Z) (c : led_cfg_t) : led_cfg_t :=
  mk_cfg (mode c) (alter_id c) (on_ms c) (off_ms c) (fade_ms c) (alternate_ms c) v.

(** Modelled from the spec: [lite_led_register_duration_timeout_cb] is
    declared in lite_led.h and called by the example program, but its body
    is not part of the sources.  The spec has it attach the optional expiry
    notification to the record and fail with the invalid-argument error on
    a bad identifier. *)
Definition lite_led_register_duration_timeout_cb
  (g : list led_dev_t) (id : Z) (cb : option fn_ptr) : Z * list led_dev_t :=
  if LED_NUM <=? id then (LED_ERROR_PARA_INVALID, g)
  else
    let led := led_at g id in
    (LED_ERROR_NONE,
     led_store g id (mk_dev (dev_id led) (cfg led) (stat led) (set_percent_cb led) cb)).

(** The modes the [switch] of [lite_led_write] accepts. *)
Definition valid_mode (m : Z) : Prop := LED_MODE_OFF <= m <= LED_MODE_ALTERNATE.

Definition is_dur_timeout (c : Z * cb_call) : bool :=
  match snd c with
  | Call_dur_timeout _ => true
  | Call_set_percent _ _ => false
  end.

(** Sequences of API calls, for the invariants. *)
Inductive api_call :=
| Api_init (id : Z) (cb : option fn_ptr)
| Api_register (id : Z) (cb : option fn_ptr)
| Api_write (id : Z) (c : option led_cfg_t)
| Api_read (id : Z) (status : option led_status_t)
| Api_poll.

Definition api_step `{Platform} (g : list led_dev_t) (a : api_call) : list led_dev_t :=
  match a with
  | Api_init id cb => snd (lite_led_init g id cb)
  | Api_register id cb => snd (lite_led_register_duration_timeout_cb g id cb)
  | Api_write id c => snd (lite_led_write g id c)
  | Api_read id status => g
  | Api_poll => fst (lite_led_poll_handle g)
  end.

Definition api_run `{Platform} (l : list api_call) : list led_dev_t :=
  fold_left api_step l g_led_list_init.

Definition percent_in_range (d : led_dev_t) : Prop :=
  LED_MIN_BRIGHTNESS <= percent (stat d) <= LED_MAX_BRIGHTNESS.

(** The real number a finite float stands for. *)
Definition SF2R (x : spec_float) : R :=
  match x with
  | S754_finite s m e => (IZR (cond_Zopp s (Zpos m)) * powerRZ 2 e)%R
  | _ => 0%R
  end.

(** The other strategy, the [#else] branch of the brightness update,
    [(1 - cos (phase)) / 2.0 * LED_MAX_BRIGHTNESS], over the reals; the
    cast to [uint8_t] lowers it by less than 1. *)
Definition percent_by_formula (phase : R) : R :=
  ((1 - cos phase) / 2 * IZR LED_MAX_BRIGHTNESS)%R.

(** ** Registry access *)

(** Reduce projections of records built by the field assignments, and
    nothing else. *)
Ltac record_simpl :=
  cbn [fst snd dev_id cfg stat set_percent_cb dur_timeout_cb upd_stat upd_cfg
       tick_mode tick_alter_id on_tick off_tick fade_tick alternate_tick
       duration_tick set_tick_mode
       percent state next_tick remain_tick phase phase_step dur_timeout
       set_percent set_state set_next_tick set_remain_tick set_phase
       set_phase_step status_zero inner_zero dev_zero] in *.

(** The same on the goal alone, with the assignments unfolded first. *)
Ltac record_norm :=
  unfold upd_stat, upd_cfg, set_tick_mode, set_percent, set_state, set_next_tick,
    set_remain_tick, set_phase, set_phase_step, status_zero, inner_zero, dev_zero;
  cbn [fst snd dev_id cfg stat set_percent_cb dur_timeout_cb
       tick_mode tick_alter_id on_tick off_tick fade_tick alternate_tick
       duration_tick
       percent state next_tick remain_tick phase phase_step dur_timeout].

Lemma length_led_store (g : list led_dev_t) i d :
  length (led_store g i d) = length g.
Proof. unfold led_store. apply length_insert. Qed.

Lemma led_at_store_eq (g : list led_dev_t) i d :
  (Z.to_nat i < length g)%nat -> led_at (led_store g i d) i = d.
Proof.
  intros Hi. unfold led_at, led_store.
  rewrite list_lookup_insert_eq; [reflexivity | exact Hi].
Qed.

Lemma led_at_store_ne (g : list led_dev_t) i j d :
  0 <= i -> 0 <= j -> i <> j -> led_at (led_store g i d) j = led_at g j.
Proof.
  intros Hi Hj Hne. unfold led_at, led_store.
  rewrite list_lookup_insert_ne; [reflexivity | lia].
Qed.

Lemma led_store_same (g : list led_dev_t) i :
  led_store g i (led_at g i) = g.
Proof.
  unfold led_at, led_store.
  destruct (g !! Z.to_nat i) as [d|] eqn:E; simpl.
  - apply list_insert_id, E.
  - apply list_insert_ge. apply lookup_ge_None. exact E.
Qed.

Lemma led_at_singleton d : led_at [d] 0 = d.
Proof. reflexivity. Qed.

Lemma led_at_store_singleton d d' : led_at (led_store [d] 0 d') 0 = d'.
Proof. reflexivity. Qed.

(** ** The loop, record by record *)

Lemma poll_led_length `{Platform} g i : length (fst (poll_led g i)) = length g.
Proof. apply length_led_store. Qed.

Lemma poll_led_other `{Platform} g i j :
  0 <= i -> 0 <= j -> i <> j -> led_at (fst (poll_led g i)) j = led_at g j.
Proof. intros. unfold poll_led. simpl. now apply led_at_store_ne. Qed.

Lemma poll_led_self `{Platform} g i :
  (Z.to_nat i < length g)%nat ->
  led_at (fst (poll_led g i)) i = fst (poll_record g i).
Proof. intros. unfold poll_led. simpl. now apply led_at_store_eq. Qed.

Lemma poll_prefix_S `{Platform} k g :
  poll_prefix (S k) g = poll_step (poll_prefix k g) k.
Proof.
  unfold poll_prefix. rewrite seq_S, fold_left_app. reflexivity.
Qed.

Lemma poll_step_fst `{Platform} acc k :
  fst (poll_step acc k) = fst (poll_led (fst acc) (Z.of_nat k)).
Proof. unfold poll_step. destruct (poll_led (fst acc) (Z.of_nat k)). reflexivity. Qed.

Lemma poll_step_snd `{Platform} acc k :
  snd (poll_step acc k)
  = snd acc ++ map (pair (Z.of_nat k)) (snd (poll_led (fst acc) (Z.of_nat k))).
Proof. unfold poll_step. destruct (poll_led (fst acc) (Z.of_nat k)). reflexivity. Qed.

Lemma poll_prefix_length `{Platform} k g :
  length (fst (poll_prefix k g)) = length g.
Proof.
  induction k as [|k IH]; [reflexivity|].
  rewrite poll_prefix_S, poll_step_fst, poll_led_length. exact IH.
Qed.

Lemma poll_prefix_above `{Platform} k g j :
  Z.of_nat k <= j -> led_at (fst (poll_prefix k g)) j = led_at g j.
Proof.
  induction k as [|k IH]; intros Hj; [reflexivity|].
  rewrite poll_prefix_S, poll_step_fst, poll_led_other by lia.
  apply IH. lia.
Qed.

Lemma poll_prefix_below `{Platform} k g j :
  (j < k)%nat -> (j < length g)%nat ->
  led_at (fst (poll_prefix k g)) (Z.of_nat j)
  = fst (poll_record (fst (poll_prefix j g)) (Z.of_nat j)).
Proof.
  induction k as [|k IH]; intros Hj Hlen; [lia|].
  rewrite poll_prefix_S, poll_step_fst.
  destruct (decide (j = k)) as [->|Hne].
  - apply poll_led_self. rewrite poll_prefix_length. lia.
  - rewrite poll_led_other by lia. apply IH; lia.
Qed.

Lemma calls_of_app i l1 l2 : calls_of i (l1 ++ l2) = calls_of i l1 ++ calls_of i l2.
Proof. unfold calls_of. rewrite filter_app, map_app. reflexivity. Qed.

Lemma calls_of_tag_eq i (l : list cb_call) : calls_of i (map (pair i) l) = l.
Proof.
  unfold calls_of. induction l as [|c l IH]; [reflexivity|].
  simpl. rewrite filter_cons_True by reflexivity. simpl. now rewrite IH.
Qed.

Lemma calls_of_tag_ne i j (l : list cb_call) :
  i <> j -> calls_of i (map (pair j) l) = [].
Proof.
  intros Hne. unfold calls_of. induction l as [|c l IH]; [reflexivity|].
  simpl. rewrite filter_cons_False by (simpl; congruence). exact IH.
Qed.

Lemma poll_prefix_calls_above `{Platform} k g j :
  Z.of_nat k <= j -> calls_of j (snd (poll_prefix k g)) = [].
Proof.
  induction k as [|k IH]; intros Hj; [reflexivity|].
  rewrite poll_prefix_S, poll_step_snd, calls_of_app, IH by lia.
  rewrite calls_of_tag_ne by lia. reflexivity.
Qed.

Lemma poll_prefix_calls_below `{Platform} k g j :
  (j < k)%nat ->
  calls_of (Z.of_nat j) (snd (poll_prefix k g))
  = snd (poll_record (fst (poll_prefix j g)) (Z.of_nat j)).
Proof.
  induction k as [|k IH]; intros Hj; [lia|].
  rewrite poll_prefix_S, poll_step_snd, calls_of_app.
  destruct (decide (j = k)) as [->|Hne].
  - rewrite poll_prefix_calls_above by lia.
    rewrite calls_of_tag_eq. reflexivity.
  - rewrite IH by lia. rewrite calls_of_tag_ne by lia. apply app_nil_r.
Qed.

Lemma poll_handle_prefix `{Platform} g :
  lite_led_poll_handle g = poll_prefix (Z.to_nat LED_NUM) g.
Proof. reflexivity. Qed.

Lemma poll_handle_length `{Platform} g :
  length (fst (lite_led_poll_handle g)) = length g.
Proof. rewrite poll_handle_prefix. apply poll_prefix_length. Qed.

Lemma ticks_length `{Platform} n g : length (ticks n g) = length g.
Proof.
  induction n as [|n IH]; [reflexivity|].
  cbn [ticks]. rewrite poll_handle_length. exact IH.
Qed.

Lemma poll_handle_record `{Platform} g i :
  0 <= i < LED_NUM -> length g = Z.to_nat LED_NUM ->
  led_at (fst (lite_led_poll_handle g)) i = fst (poll_record (seen_by g i) i).
Proof.
  intros Hi Hlen. rewrite poll_handle_prefix. unfold seen_by.
  rewrite <- (Z2Nat.id i) at 1 3 by lia.
  apply poll_prefix_below; lia.
Qed.

Lemma poll_handle_calls `{Platform} g i :
  0 <= i < LED_NUM ->
  calls_of i (snd (lite_led_poll_handle g)) = snd (poll_record (seen_by g i) i).
Proof.
  intros Hi. rewrite poll_handle_prefix. unfold seen_by.
  rewrite <- (Z2Nat.id i) at 1 3 by lia.
  apply poll_prefix_calls_below; lia.
Qed.

Lemma seen_by_length `{Platform} g i : length (seen_by g i) = length g.
Proof. apply poll_prefix_length. Qed.

Lemma seen_by_self `{Platform} g i j :
  0 <= i -> i <= j -> led_at (seen_by g i) j = led_at g j.
Proof. intros. unfold seen_by. apply poll_prefix_above. lia. Qed.

Lemma seen_by_earlier `{Platform} g i j :
  0 <= j < i -> i <= LED_NUM -> length g = Z.to_nat LED_NUM ->
  led_at (seen_by g i) j = led_at (fst (lite_led_poll_handle g)) j.
Proof.
  intros Hj Hi Hlen. rewrite poll_handle_record by lia.
  unfold seen_by at 1. rewrite <- (Z2Nat.id j) at 1 3 by lia.
  rewrite poll_prefix_below by lia. unfold seen_by. reflexivity.
Qed.

Lemma ticks_S_record `{Platform} n g i :
  0 <= i < LED_NUM -> length g = Z.to_nat LED_NUM ->
  led_at (ticks (S n) g) i = fst (poll_record (seen_by (ticks n g) i) i).
Proof.
  intros Hi Hlen. cbn [ticks]. apply poll_handle_record; [exact Hi|].
  rewrite ticks_length. exact Hlen.
Qed.

Lemma tick_calls_S `{Platform} n g i :
  0 <= i < LED_NUM ->
  tick_calls (S n) g i = snd (poll_record (seen_by (ticks n g) i) i).
Proof. intros Hi. unfold tick_calls. cbn [pred]. now apply poll_handle_calls. Qed.

(** A property of one record that every loop iteration on it keeps holds
    after any number of ticks. *)
Lemma ticks_record_invariant `{Platform} (P : led_dev_t -> Prop) g i :
  0 <= i < LED_NUM -> length g = Z.to_nat LED_NUM ->
  (forall G, length G = Z.to_nat LED_NUM ->
             P (led_at G i) -> P (fst (poll_record G i))) ->
  P (led_at g i) -> forall n, P (led_at (ticks n g) i).
Proof.
  intros Hi Hlen Hstep H0 n. induction n as [|n IH]; [exact H0|].
  rewrite ticks_S_record by assumption.
  apply Hstep.
  - rewrite seen_by_length, ticks_length. exact Hlen.
  - rewrite seen_by_self by lia. exact IH.
Qed.

(** ** What the [switch] leaves alone *)

Lemma fade_handling_frame `{Platform} m s :
  remain_tick (fade_handling m s) = remain_tick s
  /\ dur_timeout (fade_handling m s) = dur_timeout s
  /\ state (fade_handling m s) = state s
  /\ phase_step (fade_handling m s) = phase_step s.
Proof.
  unfold fade_handling. repeat case_match; simpl; auto.
Qed.

Lemma mode_handling_frame `{Platform} g i :
  let d := led_at g i in
  let d' := mode_handling g i in
  dev_id d' = dev_id d /\ cfg d' = cfg d
  /\ set_percent_cb d' = set_percent_cb d
  /\ dur_timeout_cb d' = dur_timeout_cb d
  /\ remain_tick (stat d') = remain_tick (stat d)
  /\ dur_timeout (stat d') = dur_timeout (stat d).
Proof.
  pose proof (fade_handling_frame (tick_mode (cfg (led_at g i))) (stat (led_at g i)))
    as (Fr & Fd & _).
  unfold mode_handling. cbv zeta.
  repeat (case_match; simpl); rewrite ?Fr, ?Fd; repeat split; reflexivity.
Qed.

(** A record whose lifetime countdown is zero keeps it, and its
    configuration, through an iteration. *)
Lemma poll_record_indefinite `{Platform} g i :
  (Z.to_nat i < length g)%nat ->
  remain_tick (stat (led_at g i)) = 0 ->
  remain_tick (stat (fst (poll_record g i))) = 0
  /\ cfg (fst (poll_record g i)) = cfg (led_at g i).
Proof.
  intros Hi Hr. unfold poll_record.
  destruct (set_percent_cb (led_at g i)); [|simpl; auto].
  rewrite Hr. simpl.
  destruct (next_tick (stat (led_at g i)) =? LED_BLOCK_FOREVER); [simpl; auto|].
  destruct (next_tick (stat (led_at g i)) =? 0) eqn:E0; simpl.
  - pose proof (mode_handling_frame (led_store g i (led_at g i)) i) as F.
    cbv zeta in F. rewrite led_at_store_eq in F by exact Hi.
    destruct F as (_ & Fc & _ & _ & Fr & _). rewrite Fr, Fc. auto.
  - destruct (next_tick (stat (led_at g i)) - 1 =? 0) eqn:E1; simpl; auto.
    set (d2 := upd_stat _ _).
    pose proof (mode_handling_frame (led_store g i d2) i) as F.
    cbv zeta in F. rewrite led_at_store_eq in F by exact Hi.
    destruct F as (_ & Fc & _ & _ & Fr & _). rewrite Fr, Fc. auto.
Qed.

(** ** What a call of [lite_led_write] stores *)

Lemma write_slot g id c :
  0 <= id < LED_MAX -> length g = Z.to_nat LED_NUM ->
  lite_led_write g id (Some c)
  = (fst (write_record (led_at g id) id c),
     led_store g id (snd (write_record (led_at g id) id c)))
  /\ led_at (snd (lite_led_write g id (Some c))) id
     = snd (write_record (led_at g id) id c).
Proof.
  intros Hid Hlen. unfold lite_led_write.
  destruct (LED_MAX <=? id) eqn:E; [lia|].
  split; [reflexivity|]. simpl.
  apply led_at_store_eq. rewrite Hlen. unfold LED_NUM. lia.
Qed.

Lemma write_phase_setup_frame c s :
  remain_tick (write_phase_setup c s) = remain_tick s
  /\ next_tick (write_phase_setup c s) = next_tick s
  /\ state (write_phase_setup c s) = state s
  /\ dur_timeout (write_phase_setup c s) = dur_timeout s
  /\ LED_MIN_BRIGHTNESS <= percent (write_phase_setup c s) <= LED_MAX_BRIGHTNESS.
Proof.
  unfold write_phase_setup. cbv zeta.
  destruct (mode c =? LED_MODE_FADE_OUT); record_simpl;
    unfold LED_MIN_BRIGHTNESS, LED_MAX_BRIGHTNESS; repeat split; try reflexivity; lia.
Qed.

Lemma write_record_frame led id c :
  let r := snd (write_record led id c) in
  dev_id r = dev_id led
  /\ set_percent_cb r = set_percent_cb led
  /\ dur_timeout_cb r = dur_timeout_cb led
  /\ tick_mode (cfg r) = mode c
  /\ tick_alter_id (cfg r) = alter_id c
  /\ alternate_tick (cfg r) = alternate_ms c / LED_POLL_PERIOD_MS
  /\ on_tick (cfg r) = on_ms c / LED_POLL_PERIOD_MS
  /\ off_tick (cfg r) = off_ms c / LED_POLL_PERIOD_MS
  /\ duration_tick (cfg r) = duration_ms c / LED_POLL_PERIOD_MS
  /\ remain_tick (stat r) = duration_ms c / LED_POLL_PERIOD_MS
  /\ next_tick (stat r) = 0
  /\ state (stat r) = LED_STATE_OFF
  /\ dur_timeout (stat r) = false.
Proof.
  pose proof (write_phase_setup_frame c) as F.
  unfold write_record. cbv zeta.
  repeat case_match; record_simpl; rewrite ?(proj1 (F _)), ?(proj1 (proj2 (F _))),
    ?(proj1 (proj2 (proj2 (F _)))), ?(proj1 (proj2 (proj2 (proj2 (F _)))));
    record_simpl; repeat split; reflexivity.
Qed.

Lemma init_slot g id cb :
  0 <= id < LED_NUM -> length g = Z.to_nat LED_NUM ->
  lite_led_init g id (Some cb)
  = (LED_ERROR_NONE, led_store g id (mk_dev id inner_zero status_zero (Some cb) None))
  /\ led_at (snd (lite_led_init g id (Some cb))) id
     = mk_dev id inner_zero status_zero (Some cb) None.
Proof.
  intros Hid Hlen. unfold lite_led_init.
  destruct (LED_NUM <=? id) eqn:E; [lia|].
  split; [reflexivity|]. simpl. apply led_at_store_eq. lia.
Qed.

Lemma configured_length g id cb c :
  length (configured g id cb c) = length g.
Proof.
  unfold configured, lite_led_write, lite_led_init.
  repeat (case_match; simpl); rewrite ?length_led_store; reflexivity.
Qed.

Lemma configured_slot g id cb c :
  0 <= id < LED_NUM -> length g = Z.to_nat LED_NUM ->
  led_at (configured g id cb c) id
  = snd (write_record (mk_dev id inner_zero status_zero (Some cb) None) id c).
Proof.
  intros Hid Hlen. unfold configured.
  destruct (init_slot g id cb Hid Hlen) as [Hi Hs].
  destruct (write_slot (snd (lite_led_init g id (Some cb))) id c) as [_ Hw].
  - exact Hid.
  - rewrite Hi. simpl. rewrite length_led_store. exact Hlen.
  - rewrite Hw, Hs. reflexivity.
Qed.

Lemma configured_other g id cb c j :
  0 <= id -> 0 <= j -> id <> j ->
  led_at (configured g id cb c) j = led_at g j.
Proof.
  intros Hid Hj Hne. unfold configured, lite_led_write, lite_led_init.
  repeat (case_match; simpl); rewrite ?led_at_store_ne by assumption; reflexivity.
Qed.

(** ** Rejected calls *)

(** C9: for every identifier at or beyond the registry size, [lite_led_init],
    [lite_led_write] and [lite_led_read] return the invalid-argument error
    and leave the registry (and, for the read, the caller's status buffer)
    as it was. *)
Theorem out_of_range_id_rejected g id cb c status :
  LED_NUM <= id ->
  lite_led_init g id cb = (LED_ERROR_PARA_INVALID, g)
  /\ lite_led_write g id c = (LED_ERROR_PARA_INVALID, g)
  /\ lite_led_read g id status = (LED_ERROR_PARA_INVALID, status).
Proof.
  intros Hid. unfold lite_led_init, lite_led_write, lite_led_read.
  assert (E : (LED_NUM <=? id) = true) by (apply Z.leb_le; exact Hid).
  assert (E' : (LED_MAX <=? id) = true) by exact E.
  rewrite E, E'.
  repeat split; [destruct cb | destruct c | destruct status]; reflexivity.
Qed.

Lemma out_of_range_id_rejected_witness :
  lite_led_init g_led_list_init 4 (Some 1%positive)
    = (LED_ERROR_PARA_INVALID, g_led_list_init)
  /\ lite_led_write g_led_list_init 4
       (Some (mk_cfg LED_MODE_ON 0 0 0 0 0 0))
     = (LED_ERROR_PARA_INVALID, g_led_list_init)
  /\ lite_led_read g_led_list_init 4 (Some status_zero)
     = (LED_ERROR_PARA_INVALID, Some status_zero).
Proof.
  apply (out_of_range_id_rejected g_led_list_init 4 (Some 1%positive)
           (Some (mk_cfg LED_MODE_ON 0 0 0 0 0 0)) (Some status_zero)).
  unfold LED_NUM, LED_MAX. lia.
Defined.

(** What a rejected configuration leaves in the slot: the converted
    request, with a cleared status. *)
Lemma write_rejected_slot g id c :
  0 <= id < LED_MAX -> length g = Z.to_nat LED_NUM ->
  ~ valid_mode (mode c) \/ (mode c = LED_MODE_ALTERNATE /\ alter_id c = id) ->
  fst (lite_led_write g id (Some c))
  = (if mode c =? LED_MODE_ALTERNATE then LED_ERROR_ALTERNATE_ID
     else LED_ERROR_MODE_INVALID)
  /\ tick_mode (cfg (led_at (snd (lite_led_write g id (Some c))) id)) = mode c
  /\ stat (led_at (snd (lite_led_write g id (Some c))) id)
     = set_remain_tick (duration_ms c / LED_POLL_PERIOD_MS) status_zero.
Proof.
  intros Hid Hlen Hrej.
  destruct (write_slot g id c Hid Hlen) as [Hw Hs].
  rewrite Hs, Hw. simpl. unfold write_record, valid_mode in *.
  unfold LED_MODE_OFF, LED_MODE_ON, LED_MODE_BLINK, LED_MODE_BREATH,
    LED_MODE_FADE_IN, LED_MODE_FADE_OUT, LED_MODE_ALTERNATE in *.
  destruct Hrej as [Hbad | [Hm Ha]].
  - repeat (case_match; simpl); repeat split; try reflexivity; lia.
  - rewrite Hm, Ha. simpl. rewrite Z.eqb_refl. repeat split; reflexivity.
Qed.

(** C1, at the failing input: LED_GREEN is initialized, configured to
    BLINK and ticked once, so that it is on at 100%.  A write with the
    unrecognized mode 7 returns the mode error, and a write pairing the
    record with itself in ALTERNATE mode returns the alternate-peer error,
    but either call has already replaced the stored configuration by the
    rejected one and cleared the runtime status. *)
Theorem write_rejected_clobbers_slot `{Platform} :
  let g := ticks 1 (configured g_led_list_init LED_GREEN 1%positive
                      (mk_cfg LED_MODE_BLINK 0 200 800 0 0 5000)) in
  let bad_mode := mk_cfg 7 0 0 0 0 0 0 in
  let self_pair := mk_cfg LED_MODE_ALTERNATE LED_GREEN 0 0 0 500 0 in
  (tick_mode (cfg (led_at g LED_GREEN)) = LED_MODE_BLINK
   /\ percent (stat (led_at g LED_GREEN)) = 100
   /\ remain_tick (stat (led_at g LED_GREEN)) = 49)
  /\ (fst (lite_led_write g LED_GREEN (Some bad_mode)) = LED_ERROR_MODE_INVALID
      /\ tick_mode (cfg (led_at (snd (lite_led_write g LED_GREEN (Some bad_mode)))
                           LED_GREEN)) = 7
      /\ stat (led_at (snd (lite_led_write g LED_GREEN (Some bad_mode))) LED_GREEN)
         = status_zero)
  /\ (fst (lite_led_write g LED_GREEN (Some self_pair)) = LED_ERROR_ALTERNATE_ID
      /\ cfg (led_at (snd (lite_led_write g LED_GREEN (Some self_pair))) LED_GREEN)
         = mk_inner LED_MODE_ALTERNATE LED_GREEN 0 0 0 5 0
      /\ stat (led_at (snd (lite_led_write g LED_GREEN (Some self_pair))) LED_GREEN)
         = status_zero).
Proof. vm_compute. repeat split; reflexivity. Qed.

(** ** Lifetimes shorter than one poll period *)

(** C10: a nonzero [duration_ms] below the poll period is stored as a
    lifetime of zero ticks.  The call returns and stores exactly what it
    does for [duration_ms = 0], and at every later tick the countdown is
    still zero and the configured mode still in place: the effect never
    expires. *)
Theorem sub_period_duration_never_expires `{Platform} g id c :
  0 < duration_ms c < LED_POLL_PERIOD_MS ->
  0 <= id < LED_MAX -> length g = Z.to_nat LED_NUM ->
  let g' := snd (lite_led_write g id (Some c)) in
  lite_led_write g id (Some c) = lite_led_write g id (Some (set_duration_ms 0 c))
  /\ duration_tick (cfg (led_at g' id)) = 0
  /\ forall n,
       remain_tick (stat (led_at (ticks n g') id)) = 0
       /\ tick_mode (cfg (led_at (ticks n g') id)) = mode c.
Proof.
  intros Hd Hid Hlen g'.
  assert (Hq : duration_ms c / LED_POLL_PERIOD_MS = 0) by (apply Z.div_small; lia).
  destruct (write_slot g id c Hid Hlen) as [Hw Hs].
  pose proof (write_record_frame (led_at g id) id c) as F. cbv zeta in F.
  destruct F as (_ & _ & _ & Fm & _ & _ & _ & _ & Fd & Fr & _).
  split; [|split].
  - unfold lite_led_write, write_record, set_duration_ms. simpl.
    rewrite Hq. reflexivity.
  - unfold g'. rewrite Hs, Fd. exact Hq.
  - assert (Hlen' : length g' = Z.to_nat LED_NUM).
    { unfold g'. rewrite Hw. simpl. rewrite length_led_store. exact Hlen. }
    intros n.
    apply (ticks_record_invariant
             (fun d => remain_tick (stat d) = 0 /\ tick_mode (cfg d) = mode c)
             g' id); [exact Hid | exact Hlen' | |].
    + intros G HG [Hr Hm].
      destruct (poll_record_indefinite G id) as [Hr' Hc'];
        [rewrite HG; unfold LED_NUM, LED_MAX in *; lia | exact Hr |].
      rewrite Hr', Hc'. auto.
    + unfold g'. rewrite Hs, Fr, Fm. auto.
Qed.

Lemma sub_period_duration_never_expires_witness :
  let c := mk_cfg LED_MODE_ON 0 0 0 0 0 50 in
  let g' := snd (lite_led_write g_led_list_init 0 (Some c)) in
  lite_led_write g_led_list_init 0 (Some c)
    = lite_led_write g_led_list_init 0 (Some (set_duration_ms 0 c))
  /\ duration_tick (cfg (led_at g' 0)) = 0
  /\ forall n,
       remain_tick (stat (led_at (@ticks saturating64 n g') 0)) = 0
       /\ tick_mode (cfg (led_at (@ticks saturating64 n g') 0)) = mode c.
Proof.
  apply (@sub_period_duration_never_expires saturating64 g_led_list_init 0
           (mk_cfg LED_MODE_ON 0 0 0 0 0 50)).
  - simpl. unfold LED_POLL_PERIOD_MS. lia.
  - unfold LED_MAX. lia.
  - reflexivity.
Defined.

(** ** The brightness bound *)

Lemma g_led_sin_table_range :
  Forall (fun v => LED_MIN_BRIGHTNESS <= v <= LED_MAX_BRIGHTNESS) g_led_sin_table.
Proof.
  unfold g_led_sin_table, LED_MIN_BRIGHTNESS, LED_MAX_BRIGHTNESS.
  apply Forall_app. split; repeat (constructor; [lia|]); constructor.
Qed.

Lemma get_percent_from_phase_range `{Platform} x :
  LED_MIN_BRIGHTNESS <= lite_led_get_percent_from_phase x <= LED_MAX_BRIGHTNESS.
Proof.
  unfold lite_led_get_percent_from_phase. cbv zeta.
  match goal with |- context [g_led_sin_table !! ?n] =>
    destruct (g_led_sin_table !! n) as [v|] eqn:E end; simpl.
  - exact (proj1 (Forall_lookup _ _) g_led_sin_table_range _ _ E).
  - unfold LED_MIN_BRIGHTNESS, LED_MAX_BRIGHTNESS. lia.
Qed.

Lemma fade_handling_range `{Platform} m s :
  LED_MIN_BRIGHTNESS <= percent (fade_handling m s) <= LED_MAX_BRIGHTNESS.
Proof.
  unfold fade_handling. cbv zeta.
  match goal with |- context [lite_led_get_percent_from_phase ?x] =>
    pose proof (get_percent_from_phase_range x) as Hv;
    set (v := lite_led_get_percent_from_phase x) in * end.
  cbn [percent set_percent].
  destruct (LED_MAX_BRIGHTNESS <=? v); cbn [percent set_percent];
    unfold LED_MIN_BRIGHTNESS, LED_MAX_BRIGHTNESS in *; lia.
Qed.

Lemma percent_of_state_range s :
  LED_MIN_BRIGHTNESS <= percent_of_state s <= LED_MAX_BRIGHTNESS.
Proof.
  unfold percent_of_state, LED_MIN_BRIGHTNESS, LED_MAX_BRIGHTNESS.
  destruct (s =? LED_STATE_ON); lia.
Qed.

Lemma mode_handling_range `{Platform} g i :
  percent_in_range (led_at g i) -> percent_in_range (mode_handling g i).
Proof.
  intros Hp. unfold percent_in_range in *.
  pose proof (fade_handling_range (tick_mode (cfg (led_at g i))) (stat (led_at g i))) as Hf.
  unfold mode_handling. cbv zeta.
  repeat (case_match; simpl); try exact Hp; try exact Hf;
    try apply percent_of_state_range;
    unfold LED_MIN_BRIGHTNESS, LED_MAX_BRIGHTNESS; lia.
Qed.

Lemma led_at_range g i :
  Forall percent_in_range g -> percent_in_range (led_at g i).
Proof.
  intros Hg. unfold led_at.
  destruct (g !! Z.to_nat i) as [d|] eqn:E; simpl.
  - exact (proj1 (Forall_lookup _ _) Hg _ _ E).
  - unfold percent_in_range, LED_MIN_BRIGHTNESS, LED_MAX_BRIGHTNESS. simpl. lia.
Qed.

Lemma led_store_range g i d :
  Forall percent_in_range g -> percent_in_range d ->
  Forall percent_in_range (led_store g i d).
Proof. intros Hg Hd. unfold led_store. now apply Forall_insert. Qed.

Lemma poll_record_range `{Platform} g i :
  Forall percent_in_range g -> percent_in_range (fst (poll_record g i)).
Proof.
  intros Hg. pose proof (led_at_range g i Hg) as Hd.
  unfold poll_record.
  destruct (set_percent_cb (led_at g i)); [|exact Hd].
  repeat (case_match; simpl); try exact Hd;
    apply mode_handling_range, led_at_range, led_store_range; assumption.
Qed.

Lemma poll_prefix_range `{Platform} k g :
  Forall percent_in_range g -> Forall percent_in_range (fst (poll_prefix k g)).
Proof.
  intros Hg. induction k as [|k IH]; [exact Hg|].
  rewrite poll_prefix_S, poll_step_fst. unfold poll_led. simpl.
  apply led_store_range; [exact IH|]. now apply poll_record_range.
Qed.

Lemma write_record_range led id c :
  percent_in_range (snd (write_record led id c)).
Proof.
  pose proof (write_phase_setup_frame c) as F.
  unfold percent_in_range, write_record. cbv zeta.
  repeat case_match; record_simpl; try apply F;
    unfold LED_MIN_BRIGHTNESS, LED_MAX_BRIGHTNESS; lia.
Qed.

Lemma api_step_range `{Platform} g a :
  Forall percent_in_range g -> Forall percent_in_range (api_step g a).
Proof.
  intros Hg. destruct a as [id cb | id cb | id c | id st |]; cbn [api_step].
  - unfold lite_led_init. repeat (case_match; simpl); try exact Hg.
    apply led_store_range; [exact Hg|].
    unfold percent_in_range, LED_MIN_BRIGHTNESS, LED_MAX_BRIGHTNESS. simpl. lia.
  - unfold lite_led_register_duration_timeout_cb.
    repeat (case_match; simpl); try exact Hg.
    apply led_store_range; [exact Hg|]. exact (led_at_range g id Hg).
  - unfold lite_led_write. repeat (case_match; simpl); try exact Hg.
    apply led_store_range; [exact Hg|]. apply write_record_range.
  - exact Hg.
  - rewrite poll_handle_prefix. now apply poll_prefix_range.
Qed.

(** C8: each of the API calls keeps every record's [percent] within
    [LED_MIN_BRIGHTNESS, LED_MAX_BRIGHTNESS], and so the bound holds after
    every sequence of calls on the zero-initialized registry. *)
Theorem percent_always_in_range `{Platform} :
  (forall g a, Forall percent_in_range g -> Forall percent_in_range (api_step g a))
  /\ (forall l i, 0 <= percent (stat (led_at (api_run l) i)) <= 100).
Proof.
  split; [exact api_step_range|].
  intros l i.
  assert (Hrun : forall g, Forall percent_in_range g ->
                           Forall percent_in_range (fold_left api_step l g)).
  { induction l as [|a l IH]; intros g Hg; [exact Hg|].
    cbn [fold_left]. apply IH. now apply api_step_range. }
  change (percent_in_range (led_at (api_run l) i)).
  apply led_at_range. unfold api_run. apply Hrun.
  unfold g_led_list_init. apply Forall_replicate.
  unfold percent_in_range, LED_MIN_BRIGHTNESS, LED_MAX_BRIGHTNESS. simpl. lia.
Qed.

Lemma percent_always_in_range_witness :
  Forall percent_in_range (@api_step saturating64 g_led_list_init Api_poll).
Proof.
  apply (proj1 (@percent_always_in_range saturating64) g_led_list_init Api_poll).
  apply Forall_replicate.
  unfold percent_in_range, LED_MIN_BRIGHTNESS, LED_MAX_BRIGHTNESS. simpl. lia.
Defined.

(** ** The lifetime countdown *)

(** Two or more ticks of lifetime left: the iteration takes one off and
    keeps the configuration. *)
Lemma poll_record_counting `{Platform} g i cb r :
  (Z.to_nat i < length g)%nat ->
  set_percent_cb (led_at g i) = Some cb ->
  remain_tick (stat (led_at g i)) = r -> 2 <= r ->
  let d' := fst (poll_record g i) in
  remain_tick (stat d') = r - 1 /\ cfg d' = cfg (led_at g i)
  /\ set_percent_cb d' = Some cb /\ dev_id d' = dev_id (led_at g i).
Proof.
  intros Hi Hcb Hr Hr2. cbv zeta. unfold poll_record. rewrite Hcb, Hr.
  destruct (r =? 0) eqn:E0; [lia|]. record_simpl.
  destruct (r - 1 =? 0) eqn:E1; [lia|]. cbn [negb andb].
  assert (Hfin : forall d2,
            remain_tick (stat d2) = r - 1 -> cfg d2 = cfg (led_at g i) ->
            set_percent_cb d2 = Some cb -> dev_id d2 = dev_id (led_at g i) ->
            let d3 := mode_handling (led_store g i d2) i in
            remain_tick (stat d3) = r - 1 /\ cfg d3 = cfg (led_at g i)
            /\ set_percent_cb d3 = Some cb /\ dev_id d3 = dev_id (led_at g i)).
  { intros d2 H1 H2 H3 H4. cbv zeta.
    pose proof (mode_handling_frame (led_store g i d2) i) as F. cbv zeta in F.
    rewrite led_at_store_eq in F by exact Hi.
    destruct F as (Fi & Fc & Fcb & _ & Fr & _).
    rewrite Fr, Fc, Fcb, Fi. auto. }
  destruct (next_tick (stat (led_at g i)) =? LED_BLOCK_FOREVER);
    [cbn [fst]; record_simpl; auto|].
  destruct (next_tick (stat (led_at g i)) =? 0).
  - cbn [negb andb fst]. apply Hfin; record_simpl; auto.
  - record_simpl. cbn [negb andb].
    destruct (next_tick (stat (led_at g i)) - 1 =? 0); cbn [negb fst].
    + apply Hfin; record_simpl; auto.
    + record_simpl. auto.
Qed.

(** The last tick of lifetime: the mode is forced to OFF, the event
    countdown cleared, and the iteration stops there, so brightness and
    state keep their values and no call is made. *)
Lemma poll_record_expiry `{Platform} g i cb :
  set_percent_cb (led_at g i) = Some cb ->
  remain_tick (stat (led_at g i)) = 1 ->
  poll_record g i
  = (upd_stat (set_next_tick 0)
       (upd_cfg (set_tick_mode LED_MODE_OFF)
          (upd_stat (set_remain_tick 0) (led_at g i))), []).
Proof.
  intros Hcb Hr. unfold poll_record. rewrite Hcb, Hr. reflexivity.
Qed.

(** The deferred OFF dispatch. *)
Lemma poll_record_off_dispatch `{Platform} g i cb :
  (Z.to_nat i < length g)%nat ->
  set_percent_cb (led_at g i) = Some cb ->
  remain_tick (stat (led_at g i)) = 0 ->
  next_tick (stat (led_at g i)) = 0 ->
  tick_mode (cfg (led_at g i)) = LED_MODE_OFF ->
  poll_record g i
  = (upd_stat (fun s => set_next_tick LED_BLOCK_FOREVER
                 (set_percent LED_MIN_BRIGHTNESS (set_state LED_STATE_OFF s)))
       (led_at g i),
     [Call_set_percent cb LED_MIN_BRIGHTNESS]).
Proof.
  intros Hi Hcb Hr Hn Hm. unfold poll_record. rewrite Hcb, Hr.
  cbn [Z.eqb negb andb]. rewrite Hn. cbn [Z.eqb negb andb].
  unfold mode_handling. rewrite led_at_store_eq by exact Hi.
  rewrite Hm. reflexivity.
Qed.

(** No lifetime and no further event: the record is left alone. *)
Lemma poll_record_blocked `{Platform} g i :
  remain_tick (stat (led_at g i)) = 0 ->
  next_tick (stat (led_at g i)) = LED_BLOCK_FOREVER ->
  poll_record g i = (led_at g i, []).
Proof.
  intros Hr Hn. unfold poll_record.
  destruct (set_percent_cb (led_at g i)); [|reflexivity].
  rewrite Hr. cbn [Z.eqb negb andb]. rewrite Hn. reflexivity.
Qed.

Lemma ticks_countdown `{Platform} g i cb r n :
  0 <= i < LED_NUM -> length g = Z.to_nat LED_NUM ->
  set_percent_cb (led_at g i) = Some cb ->
  remain_tick (stat (led_at g i)) = r -> Z.of_nat n < r ->
  let d := led_at (ticks n g) i in
  remain_tick (stat d) = r - Z.of_nat n /\ cfg d = cfg (led_at g i)
  /\ set_percent_cb d = Some cb /\ dev_id d = dev_id (led_at g i).
Proof.
  intros Hi Hlen Hcb Hr. induction n as [|n IH]; intros Hn; cbv zeta.
  - cbn [ticks]. repeat split; try assumption. lia.
  - destruct IH as (IHr & IHc & IHcb & IHi); [lia|].
    rewrite ticks_S_record by assumption.
    destruct (poll_record_counting (seen_by (ticks n g) i) i cb (r - Z.of_nat n))
      as (Fr & Fc & Fcb & Fi).
    + rewrite seen_by_length, ticks_length. lia.
    + rewrite seen_by_self by lia. exact IHcb.
    + rewrite seen_by_self by lia. exact IHr.
    + lia.
    + rewrite seen_by_self in Fc, Fi by lia.
      rewrite Fr, Fc, Fcb, Fi, IHc, IHi. repeat split; try reflexivity. lia.
Qed.

Lemma ticks_blocked `{Platform} g i n :
  0 <= i < LED_NUM -> length g = Z.to_nat LED_NUM ->
  remain_tick (stat (led_at g i)) = 0 ->
  next_tick (stat (led_at g i)) = LED_BLOCK_FOREVER ->
  led_at (ticks n g) i = led_at g i /\ tick_calls (S n) g i = [].
Proof.
  intros Hi Hlen Hr Hn.
  assert (Hrec : forall k, led_at (ticks k g) i = led_at g i).
  { induction k as [|k IH]; [reflexivity|].
    rewrite ticks_S_record by assumption.
    rewrite poll_record_blocked; rewrite ?seen_by_self, ?IH by lia; auto. }
  split; [apply Hrec|].
  rewrite tick_calls_S by assumption.
  rewrite poll_record_blocked; rewrite ?seen_by_self, ?Hrec by lia; auto.
Qed.

Lemma ticks_add `{Platform} n m g : ticks (n + m) g = ticks n (ticks m g).
Proof. induction n as [|n IH]; [reflexivity|]. cbn [ticks Nat.add]. now rewrite IH. Qed.

Lemma tick_calls_add `{Platform} n m g i :
  tick_calls (S n + m) g i = tick_calls (S n) (ticks m g) i.
Proof. unfold tick_calls. cbn [pred Nat.add]. now rewrite ticks_add. Qed.

(** C2, as the code has it: with [duration_ms = 500] the record keeps its
    configured mode through ticks 1 to 4; the 5th tick forces the mode to
    OFF and clears both countdowns but stops there, so brightness and state
    keep their values and no brightness call is made; the 6th tick
    extinguishes (state off, brightness 0, callback invoked with 0); from
    then on the record is left alone and no call of any kind is made. *)
Theorem lifetime_expiry_after_five_ticks `{Platform} g id cb c :
  length g = Z.to_nat LED_NUM -> 0 <= id < LED_NUM -> duration_ms c = 500 ->
  let g0 := configured g id cb c in
  let led n := led_at (ticks n g0) id in
  (forall n, (n <= 4)%nat -> tick_mode (cfg (led n)) = mode c)
  /\ (tick_mode (cfg (led 5%nat)) = LED_MODE_OFF
      /\ stat (led 5%nat) = set_next_tick 0 (set_remain_tick 0 (stat (led 4%nat)))
      /\ forall f p, ~ In (Call_set_percent f p) (tick_calls 5 g0 id))
  /\ (percent (stat (led 6%nat)) = 0 /\ state (stat (led 6%nat)) = LED_STATE_OFF
      /\ tick_calls 6 g0 id = [Call_set_percent cb 0])
  /\ (forall n, (6 <= n)%nat -> led n = led 6%nat /\ tick_calls (S n) g0 id = []).
Proof.
  intros Hlen Hid Hd g0 led.
  assert (Hlen0 : length g0 = Z.to_nat LED_NUM)
    by (unfold g0; rewrite configured_length; exact Hlen).
  pose proof (configured_slot g id cb c Hid Hlen) as Hs. fold g0 in Hs.
  pose proof (write_record_frame (mk_dev id inner_zero status_zero (Some cb) None) id c)
    as F. cbv zeta in F. rewrite <- Hs in F.
  destruct F as (_ & Fcb & _ & Fm & _ & _ & _ & _ & _ & Fr & _).
  rewrite Hd in Fr. change (500 / LED_POLL_PERIOD_MS) with 5 in Fr.
  cbn [set_percent_cb] in Fcb.
  assert (Hcount : forall n, (n <= 4)%nat ->
            remain_tick (stat (led n)) = 5 - Z.of_nat n
            /\ cfg (led n) = cfg (led_at g0 id) /\ set_percent_cb (led n) = Some cb).
  { intros n Hn.
    destruct (ticks_countdown g0 id cb 5 n Hid Hlen0 Fcb Fr) as (A & B & C & _); [lia|].
    auto. }
  destruct (Hcount 4%nat) as (H4r & H4c & H4cb); [lia|].
  assert (Hseen : forall n, led_at (seen_by (ticks n g0) id) id = led n)
    by (intros n; apply seen_by_self; lia).
  assert (Hrange : forall n, (Z.to_nat id < length (seen_by (ticks n g0) id))%nat)
    by (intros n; rewrite seen_by_length, ticks_length; lia).
  assert (H5 : poll_record (seen_by (ticks 4 g0) id) id
               = (upd_stat (set_next_tick 0)
                    (upd_cfg (set_tick_mode LED_MODE_OFF)
                       (upd_stat (set_remain_tick 0) (led 4%nat))), [])).
  { rewrite <- Hseen. apply (poll_record_expiry _ _ cb); rewrite Hseen; auto. }
  assert (E5 : led 5%nat = upd_stat (set_next_tick 0)
                 (upd_cfg (set_tick_mode LED_MODE_OFF)
                    (upd_stat (set_remain_tick 0) (led 4%nat)))).
  { unfold led at 1. rewrite ticks_S_record by assumption. now rewrite H5. }
  assert (H6 : poll_record (seen_by (ticks 5 g0) id) id
               = (upd_stat (fun s => set_next_tick LED_BLOCK_FOREVER
                      (set_percent LED_MIN_BRIGHTNESS (set_state LED_STATE_OFF s)))
                    (led 5%nat),
                  [Call_set_percent cb LED_MIN_BRIGHTNESS])).
  { rewrite <- Hseen. apply poll_record_off_dispatch;
      rewrite ?Hseen, ?E5; record_simpl; auto. }
  assert (E6 : led 6%nat = upd_stat (fun s => set_next_tick LED_BLOCK_FOREVER
                      (set_percent LED_MIN_BRIGHTNESS (set_state LED_STATE_OFF s)))
                    (led 5%nat)).
  { unfold led at 1. rewrite ticks_S_record by assumption. now rewrite H6. }
  split; [|split; [|split]].
  - intros n Hn. destruct (Hcount n Hn) as (_ & -> & _). exact Fm.
  - rewrite E5. record_simpl. repeat split.
    intros f p. rewrite (tick_calls_S 4) by assumption. rewrite H5. simpl. tauto.
  - rewrite E6. record_simpl. repeat split.
    rewrite (tick_calls_S 5) by assumption. rewrite H6. reflexivity.
  - intros n Hn. replace n with ((n - 6) + 6)%nat by lia.
    unfold led. rewrite ticks_add.
    change (S (n - 6 + 6)) with (S (n - 6) + 6)%nat. rewrite tick_calls_add.
    apply ticks_blocked; try assumption.
    + rewrite ticks_length. exact Hlen0.
    + fold (led 6%nat). rewrite E6, E5. reflexivity.
    + fold (led 6%nat). rewrite E6. reflexivity.
Qed.

Lemma lifetime_expiry_after_five_ticks_witness :
  let g0 := configured g_led_list_init LED_BLUE 1%positive
              (mk_cfg LED_MODE_BLINK 0 200 800 0 0 500) in
  let led n := led_at (@ticks saturating64 n g0) LED_BLUE in
  tick_mode (cfg (led 5%nat)) = LED_MODE_OFF
  /\ @tick_calls saturating64 6 g0 LED_BLUE = [Call_set_percent 1%positive 0].
Proof.
  destruct (@lifetime_expiry_after_five_ticks saturating64 g_led_list_init LED_BLUE
              1%positive (mk_cfg LED_MODE_BLINK 0 200 800 0 0 500))
    as (_ & (H5 & _) & (_ & _ & H6) & _).
  - reflexivity.
  - unfold LED_BLUE, LED_NUM, LED_MAX. lia.
  - reflexivity.
  - split; [exact H5 | exact H6].
Defined.

(** C2, at an input where the claim fails: LED_GREEN is configured ON with
    [duration_ms = 500] and an expiry callback is registered.  After the
    5th tick the mode is OFF, yet the brightness is still 100, the expired
    flag is clear, and ticks 1 to 6 have made no call other than the two
    brightness updates. *)
Lemma lifetime_expiry_counterexample :
  let g0 := snd (lite_led_register_duration_timeout_cb
                   (configured g_led_list_init LED_GREEN 1%positive
                      (mk_cfg LED_MODE_ON 0 0 0 0 0 500))
                   LED_GREEN (Some 2%positive)) in
  let led := led_at (@ticks saturating64 5 g0) LED_GREEN in
  dur_timeout_cb led = Some 2%positive
  /\ tick_mode (cfg led) = LED_MODE_OFF
  /\ percent (stat led) = 100
  /\ dur_timeout (stat led) = false
  /\ map (fun n => snd (@lite_led_poll_handle saturating64 (@ticks saturating64 n g0)))
         (seq 0 6)
     = [[(LED_GREEN, Call_set_percent 1%positive 100)]; []; []; []; [];
        [(LED_GREEN, Call_set_percent 1%positive 0)]].
Proof. vm_compute. repeat split; reflexivity. Qed.

Lemma poll_record_cb `{Platform} g i :
  (Z.to_nat i < length g)%nat ->
  set_percent_cb (fst (poll_record g i)) = set_percent_cb (led_at g i).
Proof.
  intros Hi. unfold poll_record.
  destruct (set_percent_cb (led_at g i)) eqn:Ecb; [|exact Ecb].
  assert (Hmh : forall d2, set_percent_cb d2 = Some f ->
            set_percent_cb (mode_handling (led_store g i d2) i) = Some f).
  { intros d2 Hc.
    pose proof (mode_handling_frame (led_store g i d2) i) as F. cbv zeta in F.
    rewrite led_at_store_eq in F by exact Hi.
    destruct F as (_ & _ & -> & _). exact Hc. }
  repeat case_match; record_simpl; auto; apply Hmh; record_simpl; auto.
Qed.

(** ** Records that read no peer *)

Lemma mode_handling_solo `{Platform} g i :
  tick_mode (cfg (led_at g i)) <> LED_MODE_ALTERNATE ->
  mode_handling g i = mode_handling [led_at g i] 0.
Proof.
  intros Hm. unfold mode_handling. rewrite led_at_singleton. cbv zeta.
  destruct (tick_mode (cfg (led_at g i)) =? LED_MODE_OFF); [reflexivity|].
  destruct (tick_mode (cfg (led_at g i)) =? LED_MODE_ON); [reflexivity|].
  destruct (tick_mode (cfg (led_at g i)) =? LED_MODE_BLINK); [reflexivity|].
  destruct (_ || _); [reflexivity|].
  destruct (tick_mode (cfg (led_at g i)) =? LED_MODE_ALTERNATE) eqn:E; [|reflexivity].
  apply Z.eqb_eq in E. contradiction.
Qed.

Lemma poll_record_solo `{Platform} g i :
  (Z.to_nat i < length g)%nat ->
  tick_mode (cfg (led_at g i)) <> LED_MODE_ALTERNATE ->
  poll_record g i = poll_record [led_at g i] 0.
Proof.
  intros Hi Hm. unfold poll_record. rewrite led_at_singleton.
  destruct (set_percent_cb (led_at g i)); [|reflexivity].
  assert (Hmh : forall d2, cfg d2 = cfg (led_at g i) ->
            mode_handling (led_store g i d2) i
            = mode_handling (led_store [led_at g i] 0 d2) 0).
  { intros d2 Hc.
    rewrite (mode_handling_solo (led_store g i d2) i);
      rewrite led_at_store_eq by exact Hi; [|rewrite Hc; exact Hm].
    rewrite (mode_handling_solo (led_store [led_at g i] 0 d2) 0);
      rewrite led_at_store_singleton; [reflexivity | rewrite Hc; exact Hm]. }
  repeat case_match; try reflexivity; rewrite Hmh; reflexivity.
Qed.

Lemma poll_record_mode `{Platform} g i :
  (Z.to_nat i < length g)%nat ->
  tick_mode (cfg (fst (poll_record g i))) = tick_mode (cfg (led_at g i))
  \/ tick_mode (cfg (fst (poll_record g i))) = LED_MODE_OFF.
Proof.
  intros Hi. unfold poll_record.
  destruct (set_percent_cb (led_at g i)); [|left; reflexivity].
  assert (Hmh : forall d2, cfg d2 = cfg (led_at g i) ->
            cfg (mode_handling (led_store g i d2) i) = cfg (led_at g i)).
  { intros d2 Hc.
    pose proof (mode_handling_frame (led_store g i d2) i) as F. cbv zeta in F.
    rewrite led_at_store_eq in F by exact Hi.
    destruct F as (_ & -> & _). exact Hc. }
  repeat case_match; record_simpl; auto; left; rewrite Hmh; reflexivity.
Qed.

Lemma ticks_solo `{Platform} g i :
  0 <= i < LED_NUM -> length g = Z.to_nat LED_NUM ->
  tick_mode (cfg (led_at g i)) <> LED_MODE_ALTERNATE ->
  forall n,
    led_at (ticks n g) i = solo_ticks n (led_at g i)
    /\ tick_calls (S n) g i = solo_calls (solo_ticks n (led_at g i)).
Proof.
  intros Hi Hlen Hm.
  assert (Hrange : forall n, (Z.to_nat i < length (seen_by (ticks n g) i))%nat)
    by (intros n; rewrite seen_by_length, ticks_length; lia).
  assert (Hrec : forall n,
            led_at (ticks n g) i = solo_ticks n (led_at g i)
            /\ tick_mode (cfg (led_at (ticks n g) i)) <> LED_MODE_ALTERNATE).
  { induction n as [|n [IH IHm]]; [split; [reflexivity | exact Hm]|].
    rewrite ticks_S_record by assumption.
    destruct (poll_record_mode (seen_by (ticks n g) i) i (Hrange n)) as [E|E].
    - rewrite E. rewrite seen_by_self by lia. split; [|exact IHm].
      rewrite poll_record_solo; rewrite ?seen_by_self by lia; auto.
      rewrite IH. reflexivity.
    - rewrite E. split; [|discriminate].
      rewrite poll_record_solo; rewrite ?seen_by_self by lia; auto.
      rewrite IH. reflexivity. }
  intros n. destruct (Hrec n) as [E Em]. split; [exact E|].
  rewrite tick_calls_S by assumption.
  rewrite poll_record_solo; rewrite ?seen_by_self by lia; auto.
  rewrite E. reflexivity.
Qed.

Lemma solo_trace_length `{Platform} n d : length (solo_trace n d) = n.
Proof.
  revert d. induction n as [|n IH]; intros d; [reflexivity|].
  cbn [solo_trace length]. now rewrite IH.
Qed.

Lemma solo_ticks_S_inner `{Platform} n d :
  solo_ticks (S n) d = solo_ticks n (solo_tick d).
Proof.
  induction n as [|n IH]; [reflexivity|].
  cbn [solo_ticks] in *. now rewrite IH.
Qed.

Lemma solo_trace_lookup `{Platform} n d k :
  (k < n)%nat ->
  solo_trace n d !! k
  = Some (solo_ticks (S k) d, solo_calls (solo_ticks k d)).
Proof.
  revert d k. induction n as [|n IH]; intros d k Hk; [lia|].
  destruct k as [|k]; [reflexivity|].
  cbn [solo_trace]. rewrite lookup_cons_ne_0 by lia. cbn [pred].
  rewrite IH by lia. rewrite <- !solo_ticks_S_inner. reflexivity.
Qed.

(** ** The lifetime countdown does not interfere with the effect *)

Lemma fade_handling_remain `{Platform} m s r :
  fade_handling m (set_remain_tick r s) = set_remain_tick r (fade_handling m s).
Proof.
  destruct s as [p st nt rt ph ps dt].
  unfold fade_handling. record_norm.
  repeat (case_match; record_norm; record_simpl); first [congruence | reflexivity].
Qed.

Lemma mode_handling_remain `{Platform} d r :
  mode_handling [with_remain r d] 0 = with_remain r (mode_handling [d] 0).
Proof.
  assert (Hpeer : forall a, state (stat (led_at [with_remain r d] a))
                            = state (stat (led_at [d] a))).
  { intros a. unfold led_at. destruct (Z.to_nat a) as [|k]; reflexivity. }
  unfold mode_handling. rewrite !led_at_singleton. cbv zeta.
  change (cfg (with_remain r d)) with (cfg d).
  change (dev_id (with_remain r d)) with (dev_id d).
  destruct (tick_mode (cfg d) =? LED_MODE_OFF); [reflexivity|].
  destruct (tick_mode (cfg d) =? LED_MODE_ON); [reflexivity|].
  destruct (tick_mode (cfg d) =? LED_MODE_BLINK).
  { unfold with_remain. record_norm.
    destruct (state (stat d) =? LED_STATE_OFF); reflexivity. }
  destruct (_ || _).
  { unfold with_remain, upd_stat.
    cbn [dev_id cfg stat set_percent_cb dur_timeout_cb].
    rewrite fade_handling_remain. reflexivity. }
  destruct (tick_mode (cfg d) =? LED_MODE_ALTERNATE); [|reflexivity].
  destruct (LED_NUM <=? tick_alter_id (cfg d)); [reflexivity|].
  rewrite Hpeer. unfold with_remain. record_norm.
  destruct (dev_id d <? tick_alter_id (cfg d)); reflexivity.
Qed.

Lemma solo_remain `{Platform} d cb r :
  set_percent_cb d = Some cb -> 2 <= r ->
  poll_record [with_remain r d] 0
  = (with_remain (r - 1) (fst (poll_record [with_remain 0 d] 0)),
     snd (poll_record [with_remain 0 d] 0)).
Proof.
  intros Hcb Hr.
  destruct d as [i c [p st nt rt ph ps dt] cb0 dcb]. cbn [set_percent_cb] in Hcb.
  subst cb0.
  assert (Hmh : forall nt',
            mode_handling
              [mk_dev i c (mk_status p st nt' (r - 1) ph ps dt) (Some cb) dcb] 0
            = with_remain (r - 1)
                (mode_handling
                   [mk_dev i c (mk_status p st nt' 0 ph ps dt) (Some cb) dcb] 0)).
  { intros nt'. rewrite <- mode_handling_remain. reflexivity. }
  unfold poll_record. rewrite !led_at_singleton. unfold with_remain. record_norm.
  destruct (r =? 0) eqn:E0; [lia|]. destruct (r - 1 =? 0) eqn:E1; [lia|].
  cbn [Z.eqb negb andb]. record_norm. rewrite ?E0, ?E1. cbn [negb andb].
  destruct (nt =? LED_BLOCK_FOREVER); [reflexivity|].
  destruct (nt =? 0).
  - cbn [negb andb]. unfold led_store. cbn [Z.to_nat]. simpl (<[_:=_]> _).
    rewrite Hmh. unfold with_remain. record_norm. reflexivity.
  - cbn [negb andb]. record_norm.
    destruct (nt - 1 =? 0); cbn [negb]; [|reflexivity].
    unfold led_store. cbn [Z.to_nat]. simpl (<[_:=_]> _).
    rewrite Hmh. unfold with_remain. record_norm. reflexivity.
Qed.

Lemma solo_ticks_lifetime `{Platform} d cb r n :
  set_percent_cb d = Some cb -> Z.of_nat n < r ->
  solo_ticks n (with_remain r d)
  = with_remain (r - Z.of_nat n) (solo_ticks n (with_remain 0 d))
  /\ set_percent_cb (solo_ticks n (with_remain 0 d)) = Some cb
  /\ remain_tick (stat (solo_ticks n (with_remain 0 d))) = 0.
Proof.
  intros Hcb. induction n as [|n IH]; intros Hn.
  - cbn [solo_ticks]. rewrite Z.sub_0_r.
    split; [|split; [exact Hcb | reflexivity]].
    destruct d as [i c [] ? ?]. reflexivity.
  - destruct IH as (IH & IHcb & IHr); [lia|].
    cbn [solo_ticks]. rewrite IH. unfold solo_tick.
    set (x := solo_ticks n (with_remain 0 d)) in *.
    assert (Hx : with_remain 0 x = x).
    { destruct x as [i c [] ? ?]. cbn in IHr. subst. reflexivity. }
    rewrite (solo_remain x cb) by (auto; lia).
    rewrite Hx. cbn [fst].
    replace (r - Z.of_nat n - 1) with (r - Z.of_nat (S n)) by lia.
    split; [reflexivity|].
    destruct (poll_record_indefinite [x] 0) as [Hr' Hc'];
      [simpl; lia | exact IHr |].
    split; [|exact Hr'].
    rewrite poll_record_cb by (simpl; lia). rewrite led_at_singleton. exact IHcb.
Qed.

Lemma solo_calls_lifetime `{Platform} d cb r n :
  set_percent_cb d = Some cb -> Z.of_nat (S n) < r ->
  solo_calls (solo_ticks n (with_remain r d))
  = solo_calls (solo_ticks n (with_remain 0 d)).
Proof.
  intros Hcb Hn.
  destruct (solo_ticks_lifetime d cb r n Hcb) as (E & Ecb & Er); [lia|].
  rewrite E. unfold solo_calls.
  set (x := solo_ticks n (with_remain 0 d)) in *.
  assert (Hx : with_remain 0 x = x).
  { destruct x as [i c [] ? ?]. cbn in Er. subst. reflexivity. }
  rewrite (solo_remain x cb) by (auto; lia). rewrite Hx. reflexivity.
Qed.

Lemma solo_ticks_indefinite `{Platform} d n :
  remain_tick (stat d) = 0 ->
  remain_tick (stat (solo_ticks n d)) = 0
  /\ set_percent_cb (solo_ticks n d) = set_percent_cb d.
Proof.
  intros Hr. induction n as [|n [IHr IHcb]]; [auto|].
  cbn [solo_ticks]. unfold solo_tick.
  destruct (poll_record_indefinite [solo_ticks n d] 0) as [Hr' _];
    [simpl; lia | exact IHr |].
  split; [exact Hr'|].
  rewrite poll_record_cb by (simpl; lia). rewrite led_at_singleton. exact IHcb.
Qed.

Lemma with_remain_same d : with_remain (remain_tick (stat d)) d = d.
Proof. destruct d as [i c [] ? ?]. reflexivity. Qed.

(** Until its last tick, a lifetime changes nothing but the countdown:
    the record and its calls are those of the same effect configured
    without a lifetime. *)
Lemma solo_lifetime_view `{Platform} d cb r n :
  set_percent_cb d = Some cb -> r = 0 \/ Z.of_nat (S n) < r ->
  (exists r', solo_ticks n (with_remain r d)
              = with_remain r' (solo_ticks n (with_remain 0 d))
              /\ solo_ticks (S n) (with_remain r d)
                 = with_remain (if r =? 0 then 0 else r' - 1)
                     (solo_ticks (S n) (with_remain 0 d)))
  /\ solo_calls (solo_ticks n (with_remain r d))
     = solo_calls (solo_ticks n (with_remain 0 d)).
Proof.
  intros Hcb [-> | Hn].
  - split; [|reflexivity]. exists 0. cbn [Z.eqb].
    destruct (solo_ticks_indefinite (with_remain 0 d) n) as [E _]; [reflexivity|].
    destruct (solo_ticks_indefinite (with_remain 0 d) (S n)) as [E' _]; [reflexivity|].
    pose proof (with_remain_same (solo_ticks n (with_remain 0 d))) as X.
    pose proof (with_remain_same (solo_ticks (S n) (with_remain 0 d))) as X'.
    rewrite E in X. rewrite E' in X'. rewrite X, X'. auto.
  - split; [|apply (solo_calls_lifetime d cb); assumption].
    exists (r - Z.of_nat n).
    destruct (solo_ticks_lifetime d cb r n Hcb) as (E & _); [lia|].
    destruct (solo_ticks_lifetime d cb r (S n) Hcb) as (E' & _); [lia|].
    split; [exact E|]. rewrite E'.
    destruct (r =? 0) eqn:E0; [lia|]. f_equal. lia.
Qed.

Lemma solo_trace_seq `{Platform} n d :
  solo_trace n d
  = map (fun k => (solo_ticks (S k) d, solo_calls (solo_ticks k d))) (seq 0 n).
Proof.
  apply list_eq. intros k.
  destruct (decide (k < n)%nat) as [Hk|Hk].
  - rewrite solo_trace_lookup by exact Hk.
    change (map ?f ?l) with (f <$> l). rewrite list_lookup_fmap.
    rewrite lookup_seq_lt by exact Hk. reflexivity.
  - rewrite !(proj2 (lookup_ge_None _ _)); [reflexivity | |].
    + rewrite length_map, length_seq. lia.
    + rewrite solo_trace_length. lia.
Qed.

(** A record in a mode other than ALTERNATE, seen through the registry,
    shows what the same effect without a lifetime shows on its own, for
    as long as the lifetime lasts. *)
Lemma observed_S `{Platform} g i d cb r n :
  0 <= i < LED_NUM -> length g = Z.to_nat LED_NUM ->
  led_at g i = with_remain r d -> set_percent_cb d = Some cb ->
  tick_mode (cfg d) <> LED_MODE_ALTERNATE ->
  r = 0 \/ Z.of_nat (S n) < r ->
  observed (S n) g i
  = observed_solo (solo_ticks (S n) (with_remain 0 d),
                   solo_calls (solo_ticks n (with_remain 0 d))).
Proof.
  intros Hi Hlen Hd Hcb Hm Hr. unfold observed, observed_solo. cbn [fst snd].
  assert (Hm' : tick_mode (cfg (led_at g i)) <> LED_MODE_ALTERNATE)
    by (rewrite Hd; exact Hm).
  destruct (ticks_solo g i Hi Hlen Hm' (S n)) as [E _].
  destruct (ticks_solo g i Hi Hlen Hm' n) as [_ Ec].
  rewrite E, Ec, Hd.
  destruct (solo_lifetime_view d cb r n Hcb Hr) as [(r' & _ & E') Ecalls].
  rewrite E', Ecalls. reflexivity.
Qed.

Lemma observed_trace `{Platform} g i d cb r N :
  0 <= i < LED_NUM -> length g = Z.to_nat LED_NUM ->
  led_at g i = with_remain r d -> set_percent_cb d = Some cb ->
  tick_mode (cfg d) <> LED_MODE_ALTERNATE ->
  r = 0 \/ Z.of_nat N < r ->
  map (fun n => observed n g i) (seq 1 N)
  = map observed_solo (solo_trace N (with_remain 0 d)).
Proof.
  intros Hi Hlen Hd Hcb Hm Hr.
  rewrite solo_trace_seq, map_map, <- seq_shift, map_map.
  apply map_ext_in. intros n Hn. apply in_seq in Hn.
  apply (observed_S g i d cb r); auto. lia.
Qed.

(** ** BLINK *)

Lemma blink_trace `{Platform} i a ft alt dt cb dcb :
  map observed_solo
    (solo_trace 11
       (mk_dev i (mk_inner LED_MODE_BLINK a 2 8 ft alt dt) status_zero (Some cb) dcb))
  = [(100, 2, [Call_set_percent cb 100]); (100, 1, []);
     (0, 8, [Call_set_percent cb 0]);
     (0, 7, []); (0, 6, []); (0, 5, []); (0, 4, []); (0, 3, []); (0, 2, []);
     (0, 1, []);
     (100, 2, [Call_set_percent cb 100])].
Proof. vm_compute. reflexivity. Qed.

(** C5: an initialized record configured with BLINK, [on_ms = 200] and
    [off_ms = 800] (and a lifetime that is indefinite or outlasts the
    window) shows, at ticks 1 to 11: a call with brightness 100 and a
    2-tick schedule; an idle tick; a call with brightness 0 and an 8-tick
    schedule; seven idle ticks, the countdown running from 7 to 1; and a
    call with brightness 100 again. *)
Theorem blink_200_800_schedule `{Platform} g id cb c :
  length g = Z.to_nat LED_NUM -> 0 <= id < LED_NUM ->
  mode c = LED_MODE_BLINK -> on_ms c = 200 -> off_ms c = 800 ->
  duration_ms c = 0 \/ 1200 <= duration_ms c ->
  map (fun n => observed n (configured g id cb c) id) (seq 1 11)
  = [(100, 2, [Call_set_percent cb 100]); (100, 1, []);
     (0, 8, [Call_set_percent cb 0]);
     (0, 7, []); (0, 6, []); (0, 5, []); (0, 4, []); (0, 3, []); (0, 2, []);
     (0, 1, []);
     (100, 2, [Call_set_percent cb 100])].
Proof.
  intros Hlen Hid Hm Hon Hoff Hd.
  pose proof (configured_slot g id cb c Hid Hlen) as Hs.
  destruct c as [m a on off fd al du]. cbn in Hm, Hon, Hoff, Hd. subst m on off.
  unfold write_record in Hs. cbn in Hs.
  change (200 / LED_POLL_PERIOD_MS) with 2 in Hs.
  change (800 / LED_POLL_PERIOD_MS) with 8 in Hs.
  rewrite <- (blink_trace id a (fd / LED_POLL_PERIOD_MS) (al / LED_POLL_PERIOD_MS)
                (du / LED_POLL_PERIOD_MS) cb None).
  apply (observed_trace _ id
           (mk_dev id (mk_inner LED_MODE_BLINK a 2 8 (fd / LED_POLL_PERIOD_MS)
                         (al / LED_POLL_PERIOD_MS) (du / LED_POLL_PERIOD_MS))
                   status_zero (Some cb) None)
           cb (du / LED_POLL_PERIOD_MS)).
  - exact Hid.
  - rewrite configured_length. exact Hlen.
  - rewrite Hs. reflexivity.
  - reflexivity.
  - discriminate.
  - destruct Hd as [-> | Hd]; [left; reflexivity | right].
    unfold LED_POLL_PERIOD_MS.
    apply Z.lt_le_trans with (1200 / 100); [reflexivity|].
    apply Z.div_le_mono; lia.
Qed.

Lemma blink_200_800_schedule_witness :
  map (fun n => @observed saturating64 n
                  (configured g_led_list_init LED_BLUE 1%positive
                     (mk_cfg LED_MODE_BLINK 0 200 800 0 0 5000)) LED_BLUE)
      (seq 1 11)
  = [(100, 2, [Call_set_percent 1%positive 100]); (100, 1, []);
     (0, 8, [Call_set_percent 1%positive 0]);
     (0, 7, []); (0, 6, []); (0, 5, []); (0, 4, []); (0, 3, []); (0, 2, []);
     (0, 1, []);
     (100, 2, [Call_set_percent 1%positive 100])].
Proof.
  apply (@blink_200_800_schedule saturating64 g_led_list_init LED_BLUE 1%positive
           (mk_cfg LED_MODE_BLINK 0 200 800 0 0 5000)); try reflexivity.
  - unfold LED_BLUE, LED_NUM, LED_MAX. lia.
  - right. simpl. lia.
Defined.

(** ** BREATH *)










(** ** Fade durations shorter than one poll period *)

Lemma sub_period_quotients :
  forallb (fun ms => beyond_half_cycle (fade_quotient ms)
                     && negb (SFleb (fade_quotient ms) f32_zero))
          (map Z.of_nat (seq 1 99)) = true.
Proof. vm_compute. reflexivity. Qed.

Lemma sub_period_quotient ms :
  0 < ms < LED_POLL_PERIOD_MS ->
  beyond_half_cycle (fade_quotient ms) = true
  /\ SFleb (fade_quotient ms) f32_zero = false.
Proof.
  intros Hms. unfold LED_POLL_PERIOD_MS in Hms.
  pose proof (proj1 (forallb_forall _ _) sub_period_quotients ms) as Hall.
  cbv beta in Hall.
  assert (Hin : In ms (map Z.of_nat (seq 1 99))).
  { apply in_map_iff. exists (Z.to_nat ms). split; [lia|]. apply in_seq. lia. }
  apply Hall in Hin. apply andb_true_iff in Hin. destruct Hin as [Hb Hn].
  split; [exact Hb|]. now apply negb_true_iff in Hn.
Qed.

(** With [fade_ms = 0] the quotient is an infinity, which the test for a
    non-positive quotient lets through. *)
Lemma zero_fade_quotient :
  fade_quotient 0 = S754_infinity false
  /\ SFleb (fade_quotient 0) f32_zero = false.
Proof. vm_compute. split; reflexivity. Qed.

(** C4, as the code has it: for a fade duration of zero ticks that is not
    zero itself, nothing is substituted.  The call succeeds and stores the
    quotient [(float)LED_PI * 100 / (float)fade_ms] (negated for FADE_OUT),
    a finite number greater than [(float)LED_PI]: no division by zero
    takes place and the increment is not zero. *)
Theorem sub_period_fade_keeps_quotient g id c :
  0 <= id < LED_MAX -> length g = Z.to_nat LED_NUM ->
  fade_mode (mode c) -> 0 < fade_ms c < LED_POLL_PERIOD_MS ->
  let d := led_at (snd (lite_led_write g id (Some c))) id in
  fst (lite_led_write g id (Some c)) = LED_ERROR_NONE
  /\ fade_tick (cfg d) = 0
  /\ phase_step (stat d)
     = (if mode c =? LED_MODE_FADE_OUT then SFopp (fade_quotient (fade_ms c))
        else fade_quotient (fade_ms c))
  /\ beyond_half_cycle (fade_quotient (fade_ms c)) = true.
Proof.
  intros Hid Hlen Hm Hms d.
  destruct (sub_period_quotient (fade_ms c) Hms) as [Hb Hn].
  destruct (write_slot g id c Hid Hlen) as [Hw Hs].
  unfold d. rewrite Hs, Hw. cbn [fst].
  unfold write_record, write_phase_setup. cbv zeta.
  fold (fade_quotient (fade_ms c)). rewrite Hn.
  assert (Hq : fade_ms c / LED_POLL_PERIOD_MS = 0) by (apply Z.div_small; lia).
  destruct Hm as [Hm | [Hm | Hm]]; rewrite Hm; cbn [Z.eqb orb fst snd];
    record_norm; rewrite Hq; auto.
Qed.

Lemma sub_period_fade_keeps_quotient_witness :
  let c := mk_cfg LED_MODE_FADE_IN 0 0 0 50 0 0 in
  let d := led_at (snd (lite_led_write g_led_list_init LED_GREEN (Some c))) LED_GREEN in
  fst (lite_led_write g_led_list_init LED_GREEN (Some c)) = LED_ERROR_NONE
  /\ fade_tick (cfg d) = 0
  /\ phase_step (stat d)
     = (if mode c =? LED_MODE_FADE_OUT then SFopp (fade_quotient (fade_ms c))
        else fade_quotient (fade_ms c))
  /\ beyond_half_cycle (fade_quotient (fade_ms c)) = true.
Proof.
  apply (sub_period_fade_keeps_quotient g_led_list_init LED_GREEN
           (mk_cfg LED_MODE_FADE_IN 0 0 0 50 0 0)).
  - unfold LED_GREEN, LED_MAX. lia.
  - reflexivity.
  - right. left. reflexivity.
  - simpl. unfold LED_POLL_PERIOD_MS. lia.
Defined.

(** C4, where the claim fails: BREATH with [fade_ms = 50], half a poll
    period.  The fade duration is zero ticks, yet the stored increment is
    the quotient, 2 pi in single precision, not the substitute; and the
    effect stalls: from the first tick on the phase wraps to the same
    value and the brightness stays 0. *)
Lemma sub_period_fade_counterexample :
  let g0 := configured g_led_list_init LED_GREEN 1%positive
              (mk_cfg LED_MODE_BREATH 0 0 0 50 0 0) in
  let s n := stat (led_at (@ticks saturating64 n g0) LED_GREEN) in
  fade_tick (cfg (led_at g0 LED_GREEN)) = 0
  /\ phase_step (s 0%nat) = S754_finite false 13176795 (-21)
  /\ fade_substitute = S754_finite false 8433149 (-28)
  /\ phase_step (s 0%nat) <> fade_substitute
  /\ map (fun n => (phase (s n), percent (s n))) (seq 1 4)
     = [(S754_finite false 12303662 (-46), 0); (S754_finite false 12303662 (-46), 0);
        (S754_finite false 12303662 (-46), 0); (S754_finite false 12303662 (-46), 0)].
Proof. vm_compute. repeat split; try reflexivity. discriminate. Qed.

(** ** The table against the cosine *)

Lemma SF2R_tick4 :
  SF2R (S754_finite false 10541436 (-23)) = (2635359 / 2097152)%R.
Proof.
  unfold SF2R, cond_Zopp, powerRZ.
  replace (Pos.to_nat 23) with 23%nat by reflexivity.
  lra.
Qed.

Lemma cos_tick4_lower : (3 / 10 < cos (2635359 / 2097152))%R.
Proof.
  destruct (pre_cos_bound (2635359 / 2097152) 1) as [lo _]; [lra | lra |].
  apply Rlt_le_trans with (2 := lo).
  unfold cos_approx. simpl sum_f_R0. unfold cos_term.
  rewrite !INR_IZR_INZ. cbv -[IZR Rplus Rmult Rdiv Rinv Ropp Rlt Rminus].
  lra.
Qed.

(** C3, at the failing input: the example program's breathing LED
    (BREATH, [fade_ms = 1000]) after its 4th tick.  The phase is
    10541436 * 2^-23, about 1.2566; the table lookup gives 44, and that is
    the brightness stored, while the cosine formula of the other strategy
    gives less than 35 (34 after the cast). *)
Theorem lut_off_the_cosine `{Platform} :
  let g0 := configured g_led_list_init LED_GREEN 1%positive
              (mk_cfg LED_MODE_BREATH 0 0 0 1000 0 0) in
  let s := stat (led_at (ticks 4 g0) LED_GREEN) in
  phase s = S754_finite false 10541436 (-23)
  /\ lite_led_get_percent_from_phase (phase s) = 44
  /\ percent s = 44
  /\ (percent_by_formula (SF2R (phase s)) < 35)%R.
Proof.
  intros g0 s.
  assert (Hp : phase s = S754_finite false 10541436 (-23)) by (vm_compute; reflexivity).
  rewrite Hp. split; [reflexivity|].
  split; [vm_compute; reflexivity|].
  split; [vm_compute; reflexivity|].
  rewrite SF2R_tick4. unfold percent_by_formula.
  change (IZR LED_MAX_BRIGHTNESS) with 100%R.
  pose proof cos_tick4_lower. lra.
Qed.

(** ** ALTERNATE *)

Lemma mode_handling_alternate `{Platform} g i :
  let d := led_at g i in
  tick_mode (cfg d) = LED_MODE_ALTERNATE ->
  tick_alter_id (cfg d) < LED_NUM ->
  mode_handling g i
  = let st := if dev_id d <? tick_alter_id (cfg d)
              then lnot (state (stat d))
              else lnot (state (stat (led_at g (tick_alter_id (cfg d))))) in
    upd_stat (fun s => set_percent (percent_of_state st)
                (set_state st (set_next_tick (alternate_tick (cfg d)) s))) d.
Proof.
  intros d Hm Ha. unfold mode_handling. fold d. cbv zeta. rewrite Hm.
  change (LED_MODE_ALTERNATE =? LED_MODE_OFF) with false.
  change (LED_MODE_ALTERNATE =? LED_MODE_ON) with false.
  change (LED_MODE_ALTERNATE =? LED_MODE_BLINK) with false.
  change (LED_MODE_ALTERNATE =? LED_MODE_FADE_IN) with false.
  change (LED_MODE_ALTERNATE =? LED_MODE_FADE_OUT) with false.
  change (LED_MODE_ALTERNATE =? LED_MODE_BREATH) with false.
  change (LED_MODE_ALTERNATE =? LED_MODE_ALTERNATE) with true.
  cbn [orb]. destruct (LED_NUM <=? tick_alter_id (cfg d)) eqn:E; [lia|].
  destruct (dev_id d <? tick_alter_id (cfg d)); reflexivity.
Qed.

(** An iteration on a live ALTERNATE record whose peer is another slot. *)
Lemma poll_record_alternate `{Platform} g i cb :
  let d := led_at g i in
  (Z.to_nat i < length g)%nat -> 0 <= i ->
  set_percent_cb d = Some cb -> tick_mode (cfg d) = LED_MODE_ALTERNATE ->
  0 <= tick_alter_id (cfg d) < LED_NUM -> tick_alter_id (cfg d) <> i ->
  remain_tick (stat d) <> 1 -> next_tick (stat d) <> LED_BLOCK_FOREVER ->
  poll_record g i
  = let r' := if remain_tick (stat d) =? 0 then 0 else remain_tick (stat d) - 1 in
    let k := next_tick (stat d) in
    if (k =? 0) || (k - 1 =? 0)
    then
      let st := if dev_id d <? tick_alter_id (cfg d)
                then lnot (state (stat d))
                else lnot (state (stat (led_at g (tick_alter_id (cfg d))))) in
      (upd_stat (fun s => set_percent (percent_of_state st)
                   (set_state st
                      (set_next_tick (alternate_tick (cfg d))
                         (set_remain_tick r' s)))) d,
       [Call_set_percent cb (percent_of_state st)])
    else (upd_stat (fun s => set_next_tick (k - 1) (set_remain_tick r' s)) d, []).
Proof.
  intros d Hi Hi0 Hcb Hm Ha Hne Hr Hk.
  assert (Hmh : forall d2,
            cfg d2 = cfg d -> dev_id d2 = dev_id d ->
            state (stat d2) = state (stat d) ->
            mode_handling (led_store g i d2) i
            = let st := if dev_id d <? tick_alter_id (cfg d)
                        then lnot (state (stat d))
                        else lnot (state (stat (led_at g (tick_alter_id (cfg d))))) in
              upd_stat (fun s => set_percent (percent_of_state st)
                          (set_state st (set_next_tick (alternate_tick (cfg d)) s))) d2).
  { intros d2 Hc Hd Hs.
    rewrite mode_handling_alternate; rewrite led_at_store_eq by exact Hi;
      rewrite ?Hc, ?Hd, ?Hs; [|exact Hm|lia].
    rewrite led_at_store_ne by lia. reflexivity. }
  unfold poll_record. fold d. rewrite Hcb. cbv zeta.
  clearbody d. destruct d as [di c [p st k r ph ps dt] cb0 dcb].
  cbn [stat remain_tick next_tick] in Hr, Hk. record_norm.
  destruct (k =? LED_BLOCK_FOREVER) eqn:Ek; [lia|].
  destruct (r =? 0) eqn:Er.
  - apply Z.eqb_eq in Er. subst r. cbn [negb andb]. record_norm. rewrite Ek.
    destruct (k =? 0) eqn:E0; cbn [negb andb orb].
    + rewrite Hmh by reflexivity. reflexivity.
    + record_norm. destruct (k - 1 =? 0) eqn:E1; cbn [negb]; [|reflexivity].
      rewrite Hmh by reflexivity. reflexivity.
  - cbn [negb andb]. record_norm.
    destruct (r - 1 =? 0) eqn:Er1; [lia|]. cbn [andb]. rewrite Ek.
    destruct (k =? 0) eqn:E0; cbn [negb andb orb].
    + rewrite Hmh by reflexivity. reflexivity.
    + record_norm. destruct (k - 1 =? 0) eqn:E1; cbn [negb]; [|reflexivity].
      rewrite Hmh by reflexivity. reflexivity.
Qed.

Lemma mod_succ P m :
  0 < P -> 0 <= m ->
  ((m + 1) mod P = 0 /\ m mod P = P - 1)
  \/ ((m + 1) mod P = m mod P + 1 /\ m mod P < P - 1).
Proof.
  intros HP Hm. pose proof (Z.mod_pos_bound m P HP) as Hb.
  pose proof (Z.div_mod m P ltac:(lia)) as Hdm.
  destruct (decide (m mod P = P - 1)) as [E|E].
  - left. split; [|exact E].
    replace (m + 1) with ((m / P + 1) * P) by lia. apply Z.mod_mul. lia.
  - right. split; [|lia].
    symmetry. apply Z.mod_unique with (q := m / P); lia.
Qed.

Lemma alt_countdown_step T n :
  0 <= T ->
  let k := alt_countdown T n in
  0 <= k <= T
  /\ (if Z.of_nat n mod Z.max T 1 =? 0
      then ((k =? 0) || (k - 1 =? 0)) = true /\ alt_countdown T (S n) = T
      else ((k =? 0) || (k - 1 =? 0)) = false /\ alt_countdown T (S n) = k - 1).
Proof.
  intros HT k. unfold k. clear k.
  assert (HP : 0 < Z.max T 1) by lia.
  destruct n as [|m].
  - cbn [alt_countdown]. rewrite Z.mod_0_l by lia. cbn. split; [lia|]. split; [reflexivity|lia].
  - cbn [alt_countdown].
    pose proof (Z.mod_pos_bound (Z.of_nat m) (Z.max T 1) HP) as Hb.
    replace (Z.of_nat (S m)) with (Z.of_nat m + 1) by lia.
    destruct (mod_succ (Z.max T 1) (Z.of_nat m) HP ltac:(lia)) as [[E1 E2] | [E1 E2]].
    + rewrite E1, E2. cbn [Z.eqb]. split; [lia|]. split; [|lia].
      apply orb_true_iff. destruct (decide (T = 0)); [left|right]; apply Z.eqb_eq; lia.
    + rewrite E1.
      destruct (Z.of_nat m mod Z.max T 1 + 1 =? 0) eqn:E0; [lia|].
      split; [lia|]. split; [|lia].
      apply orb_false_iff. split; apply Z.eqb_neq; lia.
Qed.

Lemma alive_before r n : alive r (S n) -> alive r n.
Proof. unfold alive. lia. Qed.

Lemma alt_record_step `{Platform} g i peer cb T r n :
  (Z.to_nat i < length g)%nat -> 0 <= i -> 0 <= peer < LED_NUM -> peer <> i ->
  0 <= T < LED_BLOCK_FOREVER ->
  alt_record (led_at g i) i peer cb T r n -> alive r (S n) ->
  let d := led_at g i in
  let d' := fst (poll_record g i) in
  alt_record d' i peer cb T r (S n)
  /\ (if Z.of_nat n mod Z.max T 1 =? 0
      then state (stat d')
           = (if i <? peer then lnot (state (stat d))
              else lnot (state (stat (led_at g peer))))
           /\ snd (poll_record g i)
              = [Call_set_percent cb (percent_of_state (state (stat d')))]
      else state (stat d') = state (stat d) /\ snd (poll_record g i) = []).
Proof.
  intros Hi Hi0 Hp Hne HT [Hcb Hid Hm Hpeer Hper Hrem Hnext] Hal. cbv zeta.
  destruct (alt_countdown_step T n (proj1 HT)) as [Hk Hstep]. cbv zeta in Hk, Hstep.
  assert (Hrem1 : (if lifetime_left r n =? 0 then 0 else lifetime_left r n - 1)
                  = lifetime_left r (S n)).
  { unfold lifetime_left, alive in *.
    destruct (r =? 0) eqn:Er; [reflexivity|].
    apply Z.eqb_neq in Er. destruct (r - Z.of_nat n =? 0) eqn:E; lia. }
  assert (Ha1 : 0 <= tick_alter_id (cfg (led_at g i)) < LED_NUM)
    by (rewrite Hpeer; exact Hp).
  assert (Ha2 : tick_alter_id (cfg (led_at g i)) <> i)
    by (rewrite Hpeer; exact Hne).
  assert (Hr1 : remain_tick (stat (led_at g i)) <> 1).
  { rewrite Hrem. unfold lifetime_left, alive in *. destruct (r =? 0) eqn:Er; lia. }
  assert (Hk1 : next_tick (stat (led_at g i)) <> LED_BLOCK_FOREVER)
    by (rewrite Hnext; lia).
  pose proof (poll_record_alternate g i cb Hi Hi0 Hcb Hm Ha1 Ha2 Hr1 Hk1) as E.
  cbv zeta in E. rewrite Hrem, Hrem1, Hnext, Hid, Hpeer, Hper in E.
  rewrite E. clear E.
  destruct (Z.of_nat n mod Z.max T 1 =? 0); destruct Hstep as [Hc Hn']; rewrite Hc.
  - cbn [fst snd]. split; [|split; reflexivity].
    split; record_norm; try assumption; try reflexivity. auto.
  - cbn [fst snd]. split; [|split; reflexivity].
    split; record_norm; try assumption; try reflexivity. auto.
Qed.

(** One tick on a live pair: a dispatch for both records, the lower
    identifier toggling and the higher taking the negation of what the lower
    has just become, or an idle tick for both. *)
Lemma alternate_pair_step `{Platform} G a b cbA cbB T rA rB n :
  length G = Z.to_nat LED_NUM -> 0 <= a -> a < b -> b < LED_NUM ->
  0 <= T < LED_BLOCK_FOREVER ->
  alt_record (led_at G a) a b cbA T rA n ->
  alt_record (led_at G b) b a cbB T rB n ->
  alive rA (S n) -> alive rB (S n) ->
  let G' := fst (lite_led_poll_handle G) in
  let tr := snd (lite_led_poll_handle G) in
  let sA := state (stat (led_at G a)) in
  let sB := state (stat (led_at G b)) in
  let sA' := state (stat (led_at G' a)) in
  let sB' := state (stat (led_at G' b)) in
  alt_record (led_at G' a) a b cbA T rA (S n)
  /\ alt_record (led_at G' b) b a cbB T rB (S n)
  /\ (if Z.of_nat n mod Z.max T 1 =? 0
      then sA' = lnot sA /\ sB' = lnot sA'
           /\ calls_of a tr = [Call_set_percent cbA (percent_of_state sA')]
           /\ calls_of b tr = [Call_set_percent cbB (percent_of_state sB')]
      else sA' = sA /\ sB' = sB /\ calls_of a tr = [] /\ calls_of b tr = []).
Proof.
  intros HlenG Ha Hab Hb HT IA IB HalA HalB. cbv zeta.
  rewrite !poll_handle_calls by lia.
  assert (EA : led_at (fst (lite_led_poll_handle G)) a = fst (poll_record (seen_by G a) a))
    by (apply poll_handle_record; [lia | exact HlenG]).
  assert (EB : led_at (fst (lite_led_poll_handle G)) b = fst (poll_record (seen_by G b) b))
    by (apply poll_handle_record; [lia | exact HlenG]).
  assert (SAa : led_at (seen_by G a) a = led_at G a) by (apply seen_by_self; lia).
  assert (SBb : led_at (seen_by G b) b = led_at G b) by (apply seen_by_self; lia).
  assert (SBa : led_at (seen_by G b) a = led_at (fst (lite_led_poll_handle G)) a)
    by (apply seen_by_earlier; [lia | lia | exact HlenG]).
  destruct (alt_record_step (seen_by G a) a b cbA T rA n) as [RA CA];
    try assumption; try lia.
  { rewrite seen_by_length. lia. }
  { rewrite SAa. exact IA. }
  destruct (alt_record_step (seen_by G b) b a cbB T rB n) as [RB CB];
    try assumption; try lia.
  { rewrite seen_by_length. lia. }
  { rewrite SBb. exact IB. }
  cbv zeta in RA, RB, CA, CB. rewrite <- EA in RA, CA. rewrite <- EB in RB, CB.
  rewrite SAa in CA. rewrite SBb, SBa in CB.
  split; [exact RA|]. split; [exact RB|].
  destruct (Z.of_nat n mod Z.max T 1 =? 0).
  - destruct CA as [CA CA']. destruct CB as [CB CB'].
    destruct (a <? b) eqn:E1; [|lia]. destruct (b <? a) eqn:E2; [lia|]. auto.
  - destruct CA as [CA CA']. destruct CB as [CB CB']. auto.
Qed.

(** What configuring the pair leaves. *)
Lemma alternate_pair_initial g a b cbA cbB cA cB :
  length g = Z.to_nat LED_NUM -> 0 <= a -> a < b -> b < LED_NUM ->
  mode cA = LED_MODE_ALTERNATE -> mode cB = LED_MODE_ALTERNATE ->
  alter_id cA = b -> alter_id cB = a ->
  alternate_ms cA = alternate_ms cB ->
  let g0 := configured (configured g a cbA cA) b cbB cB in
  let T := alternate_ms cA / LED_POLL_PERIOD_MS in
  alt_record (led_at g0 a) a b cbA T (duration_ms cA / LED_POLL_PERIOD_MS) 0
  /\ alt_record (led_at g0 b) b a cbB T (duration_ms cB / LED_POLL_PERIOD_MS) 0
  /\ state (stat (led_at g0 a)) = LED_STATE_OFF
  /\ state (stat (led_at g0 b)) = LED_STATE_OFF.
Proof.
  intros Hlen Ha Hab Hb HmA HmB HaA HaB Hms g0 T.
  assert (HA : led_at g0 a
               = snd (write_record (mk_dev a inner_zero status_zero (Some cbA) None) a cA)).
  { unfold g0. rewrite configured_other by lia. apply configured_slot; [lia | exact Hlen]. }
  assert (HB : led_at g0 b
               = snd (write_record (mk_dev b inner_zero status_zero (Some cbB) None) b cB)).
  { unfold g0. apply configured_slot; [lia|]. rewrite configured_length. exact Hlen. }
  pose proof (write_record_frame (mk_dev a inner_zero status_zero (Some cbA) None) a cA) as FA.
  pose proof (write_record_frame (mk_dev b inner_zero status_zero (Some cbB) None) b cB) as FB.
  cbv zeta in FA, FB. rewrite <- HA in FA. rewrite <- HB in FB.
  destruct FA as (A1 & A2 & _ & A4 & A5 & A6 & _ & _ & _ & A10 & A11 & A12 & _).
  destruct FB as (B1 & B2 & _ & B4 & B5 & B6 & _ & _ & _ & B10 & B11 & B12 & _).
  assert (EL : forall r, lifetime_left r 0 = r).
  { intros r. unfold lifetime_left. destruct (r =? 0) eqn:E; [|lia].
    apply Z.eqb_eq in E. lia. }
  cbn [dev_id set_percent_cb] in A1, A2, B1, B2.
  rewrite HmA in A4. rewrite HmB in B4. rewrite HaA in A5. rewrite HaB in B5.
  rewrite <- Hms in B6. fold T in A6, B6.
  split; [|split; [|split]]; try assumption.
  - split; rewrite ?EL; assumption.
  - split; rewrite ?EL; assumption.
Qed.

(** The pair after [n] ticks, while both lifetimes last. *)
Lemma alternate_pair_invariant `{Platform} g a b cbA cbB cA cB n :
  length g = Z.to_nat LED_NUM -> 0 <= a -> a < b -> b < LED_NUM ->
  mode cA = LED_MODE_ALTERNATE -> mode cB = LED_MODE_ALTERNATE ->
  alter_id cA = b -> alter_id cB = a ->
  alternate_ms cA = alternate_ms cB -> 0 <= alternate_ms cA < 2 ^ 32 ->
  let g0 := configured (configured g a cbA cA) b cbB cB in
  let T := alternate_ms cA / LED_POLL_PERIOD_MS in
  let rA := duration_ms cA / LED_POLL_PERIOD_MS in
  let rB := duration_ms cB / LED_POLL_PERIOD_MS in
  alive rA n -> alive rB n ->
  alt_record (led_at (ticks n g0) a) a b cbA T rA n
  /\ alt_record (led_at (ticks n g0) b) b a cbB T rB n
  /\ (n <> 0%nat ->
      state (stat (led_at (ticks n g0) b))
      = lnot (state (stat (led_at (ticks n g0) a)))).
Proof.
  intros Hlen Ha Hab Hb HmA HmB HaA HaB Hms Hrange g0 T rA rB.
  assert (HT : 0 <= T < LED_BLOCK_FOREVER).
  { unfold T, LED_POLL_PERIOD_MS, LED_BLOCK_FOREVER. split.
    - apply Z.div_pos; lia.
    - apply Z.div_lt_upper_bound; lia. }
  assert (Hlen0 : length g0 = Z.to_nat LED_NUM)
    by (unfold g0; rewrite !configured_length; exact Hlen).
  induction n as [|n IH]; intros HalA HalB.
  - destruct (alternate_pair_initial g a b cbA cbB cA cB) as (IA & IB & _); try assumption.
    cbn [ticks]. split; [exact IA|]. split; [exact IB|]. congruence.
  - destruct IH as (IA & IB & IS); [now apply alive_before | now apply alive_before |].
    destruct (alternate_pair_step (ticks n g0) a b cbA cbB T rA rB n)
      as (RA & RB & C); try assumption.
    { rewrite ticks_length. exact Hlen0. }
    cbv zeta in RA, RB, C. cbn [ticks].
    split; [exact RA|]. split; [exact RB|]. intros _.
    destruct (Z.of_nat n mod Z.max T 1 =? 0) eqn:Emod.
    + destruct C as (_ & C & _). exact C.
    + destruct C as (CA & CB & _). rewrite CA, CB. apply IS.
      intros ->. rewrite Z.mod_0_l in Emod by lia. discriminate.
Qed.

Lemma configured_store g id cb c :
  0 <= id < LED_NUM -> length g = Z.to_nat LED_NUM ->
  configured g id cb c
  = led_store g id
      (snd (write_record (mk_dev id inner_zero status_zero (Some cb) None) id c)).
Proof.
  intros Hid Hlen. unfold configured.
  destruct (init_slot g id cb Hid Hlen) as [Hi Hs].
  destruct (write_slot (snd (lite_led_init g id (Some cb))) id c) as [Hw _].
  - exact Hid.
  - rewrite Hi. cbn [snd]. rewrite length_led_store. exact Hlen.
  - rewrite Hw, Hs, Hi. cbn [snd]. unfold led_store.
    apply list_insert_insert_eq.
Qed.

(** Configuring two different records in either order leaves the same
    registry. *)
Lemma configured_commute g a b cbA cbB cA cB :
  length g = Z.to_nat LED_NUM -> 0 <= a < LED_NUM -> 0 <= b < LED_NUM -> a <> b ->
  configured (configured g b cbB cB) a cbA cA
  = configured (configured g a cbA cA) b cbB cB.
Proof.
  intros Hlen Ha Hb Hab.
  rewrite (configured_store (configured g b cbB cB) a)
    by (rewrite ?configured_length; assumption).
  rewrite (configured_store (configured g a cbA cA) b)
    by (rewrite ?configured_length; assumption).
  rewrite !configured_store by assumption.
  unfold led_store. apply list_insert_insert_ne. lia.
Qed.

(** C6, as the code has it: LED [a] and LED [b], [a < b], are initialized
    and configured in ALTERNATE mode, each naming the other, with the same
    [alternate_ms], one right after the other, in either order, with no
    tick in between.  Both start off.  While both lifetimes last, every
    tick is for both records either a dispatch or an idle tick; the
    dispatches are the first tick and then every
    [max (alternate_ms / 100) 1]-th; on a dispatch [a] toggles and [b]
    takes the negation of what [a] has just become; and after every tick
    [b]'s state is the negation of [a]'s, so the two are never on
    together. *)
Theorem alternate_pair_never_both_on `{Platform} g a b cbA cbB cA cB :
  length g = Z.to_nat LED_NUM -> 0 <= a -> a < b -> b < LED_NUM ->
  mode cA = LED_MODE_ALTERNATE -> mode cB = LED_MODE_ALTERNATE ->
  alter_id cA = b -> alter_id cB = a ->
  alternate_ms cA = alternate_ms cB -> 0 <= alternate_ms cA < 2 ^ 32 ->
  let g0 := configured (configured g a cbA cA) b cbB cB in
  let period := Z.max (alternate_ms cA / LED_POLL_PERIOD_MS) 1 in
  let sA n := state (stat (led_at (ticks n g0) a)) in
  let sB n := state (stat (led_at (ticks n g0) b)) in
  configured (configured g b cbB cB) a cbA cA = g0
  /\ (sA 0%nat = LED_STATE_OFF /\ sB 0%nat = LED_STATE_OFF)
  /\ forall n,
       alive (duration_ms cA / LED_POLL_PERIOD_MS) (S n) ->
       alive (duration_ms cB / LED_POLL_PERIOD_MS) (S n) ->
       sB (S n) = lnot (sA (S n))
       /\ ~ (sA (S n) = LED_STATE_ON /\ sB (S n) = LED_STATE_ON)
       /\ (if Z.of_nat n mod period =? 0
           then sA (S n) = lnot (sA n)
                /\ tick_calls (S n) g0 a
                   = [Call_set_percent cbA (percent_of_state (sA (S n)))]
                /\ tick_calls (S n) g0 b
                   = [Call_set_percent cbB (percent_of_state (sB (S n)))]
           else sA (S n) = sA n /\ sB (S n) = sB n
                /\ tick_calls (S n) g0 a = [] /\ tick_calls (S n) g0 b = []).
Proof.
  intros Hlen Ha Hab Hb HmA HmB HaA HaB Hms Hrange g0 period sA sB.
  set (T := alternate_ms cA / LED_POLL_PERIOD_MS) in *.
  assert (HT : 0 <= T < LED_BLOCK_FOREVER).
  { unfold T, LED_POLL_PERIOD_MS, LED_BLOCK_FOREVER. split.
    - apply Z.div_pos; lia.
    - apply Z.div_lt_upper_bound; lia. }
  assert (Hlen0 : length g0 = Z.to_nat LED_NUM)
    by (unfold g0; rewrite !configured_length; exact Hlen).
  split; [|split].
  - apply configured_commute; [exact Hlen | lia | lia | lia].
  - destruct (alternate_pair_initial g a b cbA cbB cA cB) as (_ & _ & SA & SB);
      try assumption.
    split; [exact SA | exact SB].
  - intros n HalA HalB.
    destruct (alternate_pair_invariant g a b cbA cbB cA cB n) as (IA & IB & _);
      try assumption; try (now apply alive_before).
    destruct (alternate_pair_invariant g a b cbA cbB cA cB (S n)) as (_ & _ & IS);
      try assumption.
    specialize (IS ltac:(discriminate)). fold g0 in IA, IB, IS.
    destruct (alternate_pair_step (ticks n g0) a b cbA cbB T
                (duration_ms cA / LED_POLL_PERIOD_MS)
                (duration_ms cB / LED_POLL_PERIOD_MS) n)
      as (_ & _ & C); try assumption.
    { rewrite ticks_length. exact Hlen0. }
    cbv zeta in C.
    split; [exact IS|]. split.
    + intros [E1 E2]. unfold sA, sB in *. rewrite IS, E1 in E2. discriminate.
    + unfold period, sA, sB, tick_calls. cbn [pred ticks] in *.
      destruct (Z.of_nat n mod Z.max T 1 =? 0).
      * destruct C as (C1 & _ & C3 & C4). auto.
      * exact C.
Qed.

Lemma alternate_pair_never_both_on_witness :
  let c peer := mk_cfg LED_MODE_ALTERNATE peer 0 0 0 500 3000 in
  let g0 := configured (configured g_led_list_init LED_RED 3%positive (c LED_WHITE))
              LED_WHITE 4%positive (c LED_RED) in
  let sA n := state (stat (led_at (@ticks saturating64 n g0) LED_RED)) in
  let sB n := state (stat (led_at (@ticks saturating64 n g0) LED_WHITE)) in
  sB 6%nat = lnot (sA 6%nat)
  /\ ~ (sA 6%nat = LED_STATE_ON /\ sB 6%nat = LED_STATE_ON)
  /\ sA 6%nat = lnot (sA 5%nat)
  /\ @tick_calls saturating64 6 g0 LED_RED
     = [Call_set_percent 3%positive (percent_of_state (sA 6%nat))]
  /\ @tick_calls saturating64 6 g0 LED_WHITE
     = [Call_set_percent 4%positive (percent_of_state (sB 6%nat))].
Proof.
  intros c g0 sA sB.
  destruct (@alternate_pair_never_both_on saturating64 g_led_list_init LED_RED LED_WHITE
              3%positive 4%positive (c LED_WHITE) (c LED_RED)) as (_ & _ & Hn);
    try reflexivity; try (unfold LED_RED, LED_WHITE, LED_NUM, LED_MAX; lia).
  { simpl. lia. }
  apply (Hn 5%nat); unfold alive; right; vm_compute; reflexivity.
Defined.

(** C6, where the claim fails.  Both LEDs are in ALTERNATE mode with
    [alternate_ms = 500], each naming the other.  When LED_WHITE is
    configured two ticks after LED_RED, the two dispatch on different
    ticks: 9 and 10 ticks after the second write both are still in
    ALTERNATE mode, in state on, at brightness 100.  When both are
    configured together but LED_WHITE has [duration_ms = 1100], its
    lifetime ends on the dispatch tick 11, which leaves it on while
    LED_RED toggles to on. *)
Lemma alternate_pair_counterexample :
  let c peer dur := mk_cfg LED_MODE_ALTERNATE peer 0 0 0 500 dur in
  let late :=
    configured
      (@ticks saturating64 2
         (configured g_led_list_init LED_RED 3%positive (c LED_WHITE 0)))
      LED_WHITE 4%positive (c LED_RED 0) in
  let short :=
    configured (configured g_led_list_init LED_RED 3%positive (c LED_WHITE 0))
      LED_WHITE 4%positive (c LED_RED 1100) in
  let red n g := led_at (@ticks saturating64 n g) LED_RED in
  let white n g := led_at (@ticks saturating64 n g) LED_WHITE in
  (tick_mode (cfg (red 9%nat late)) = LED_MODE_ALTERNATE
   /\ tick_mode (cfg (white 9%nat late)) = LED_MODE_ALTERNATE
   /\ state (stat (red 9%nat late)) = LED_STATE_ON
   /\ state (stat (white 9%nat late)) = LED_STATE_ON
   /\ percent (stat (red 9%nat late)) = 100
   /\ percent (stat (white 9%nat late)) = 100
   /\ state (stat (red 10%nat late)) = LED_STATE_ON
   /\ state (stat (white 10%nat late)) = LED_STATE_ON)
  /\ (state (stat (red 11%nat short)) = LED_STATE_ON
      /\ state (stat (white 11%nat short)) = LED_STATE_ON
      /\ percent (stat (red 11%nat short)) = 100
      /\ percent (stat (white 11%nat short)) = 100).
Proof. vm_compute. repeat split; reflexivity. Qed.

(** * Further properties of the registry operations *)

(** ** [lite_led_init] *)

(** X1: a successful [lite_led_init] leaves the slot zeroed but for its
    identifier and brightness callback, so an effect configured before,
    its runtime status and a registered expiry callback are discarded;
    the other slots and the size of the registry are untouched.  With a
    NULL callback the call fails and changes nothing, whatever the
    identifier. *)
Theorem init_resets_one_slot g id cb :
  0 <= id < LED_NUM -> length g = Z.to_nat LED_NUM ->
  let r := lite_led_init g id (Some cb) in
  fst r = LED_ERROR_NONE
  /\ length (snd r) = length g
  /\ led_at (snd r) id = mk_dev id inner_zero status_zero (Some cb) None
  /\ (forall j, 0 <= j -> j <> id -> led_at (snd r) j = led_at g j)
  /\ lite_led_init g id None = (-1, g).
Proof.
  intros Hid Hlen r. unfold r.
  destruct (init_slot g id cb Hid Hlen) as [E Es].
  rewrite Es, E. cbn [fst snd]. rewrite length_led_store.
  repeat split; try reflexivity.
  intros j Hj Hne. apply led_at_store_ne; lia.
Qed.

Lemma init_resets_one_slot_witness :
  let g := configured g_led_list_init LED_BLUE 1%positive
             (mk_cfg LED_MODE_BLINK 0 200 800 0 0 5000) in
  let r := lite_led_init g LED_BLUE (Some 2%positive) in
  fst r = LED_ERROR_NONE
  /\ length (snd r) = length g
  /\ led_at (snd r) LED_BLUE = mk_dev LED_BLUE inner_zero status_zero (Some 2%positive) None
  /\ (forall j, 0 <= j -> j <> LED_BLUE -> led_at (snd r) j = led_at g j)
  /\ lite_led_init g LED_BLUE None = (-1, g).
Proof.
  apply (init_resets_one_slot
           (configured g_led_list_init LED_BLUE 1%positive
              (mk_cfg LED_MODE_BLINK 0 200 800 0 0 5000)) LED_BLUE 2%positive).
  - unfold LED_BLUE, LED_NUM, LED_MAX. lia.
  - reflexivity.
Defined.

(** ** [lite_led_write] *)

Lemma write_record_depends led led' id c :
  dev_id led' = dev_id led -> set_percent_cb led' = set_percent_cb led ->
  dur_timeout_cb led' = dur_timeout_cb led ->
  write_record led' id c = write_record led id c.
Proof.
  intros E1 E2 E3. unfold write_record. rewrite E1, E2, E3. reflexivity.
Qed.

(** X2: [lite_led_write] replaces the whole effect of its slot and nothing
    else.  It keeps the slot's identifier and both callbacks, leaves the
    other slots alone, and what it stores does not depend on what was
    configured or running before: writing [c2] after any [c1], accepted
    or rejected, leaves the registry that writing [c2] alone leaves. *)
Theorem write_last_wins g id c1 c2 :
  0 <= id < LED_MAX -> length g = Z.to_nat LED_NUM ->
  let g1 := snd (lite_led_write g id (Some c1)) in
  lite_led_write g1 id (Some c2) = lite_led_write g id (Some c2)
  /\ dev_id (led_at g1 id) = dev_id (led_at g id)
  /\ set_percent_cb (led_at g1 id) = set_percent_cb (led_at g id)
  /\ dur_timeout_cb (led_at g1 id) = dur_timeout_cb (led_at g id)
  /\ length g1 = length g
  /\ (forall j, 0 <= j -> j <> id -> led_at g1 j = led_at g j).
Proof.
  intros Hid Hlen g1.
  destruct (write_slot g id c1 Hid Hlen) as [Hw Hs].
  pose proof (write_record_frame (led_at g id) id c1) as F. cbv zeta in F.
  destruct F as (F1 & F2 & F3 & _).
  assert (Hlen1 : length g1 = Z.to_nat LED_NUM).
  { unfold g1. rewrite Hw. cbn [snd]. rewrite length_led_store. exact Hlen. }
  split; [|split; [|split; [|split; [|split]]]].
  - destruct (write_slot g1 id c2 Hid Hlen1) as [Hw2 _].
    destruct (write_slot g id c2 Hid Hlen) as [Hw0 _].
    rewrite Hw2, Hw0. fold g1 in Hs. rewrite Hs.
    rewrite (write_record_depends (led_at g id) _ id c2 F1 F2 F3).
    f_equal. unfold g1. rewrite Hw. cbn [snd]. unfold led_store.
    apply list_insert_insert_eq.
  - unfold g1. rewrite Hs. exact F1.
  - unfold g1. rewrite Hs. exact F2.
  - unfold g1. rewrite Hs. exact F3.
  - rewrite Hlen1, Hlen. reflexivity.
  - intros j Hj Hne. unfold g1. rewrite Hw. cbn [snd].
    apply led_at_store_ne; lia.
Qed.

Lemma write_last_wins_witness :
  let g := snd (lite_led_init g_led_list_init LED_GREEN (Some 1%positive)) in
  let g1 := snd (lite_led_write g LED_GREEN (Some (mk_cfg 7 0 0 0 0 0 0))) in
  lite_led_write g1 LED_GREEN (Some (mk_cfg LED_MODE_ON 0 0 0 0 0 0))
  = lite_led_write g LED_GREEN (Some (mk_cfg LED_MODE_ON 0 0 0 0 0 0)).
Proof.
  apply (write_last_wins (snd (lite_led_init g_led_list_init LED_GREEN (Some 1%positive)))
           LED_GREEN (mk_cfg 7 0 0 0 0 0 0) (mk_cfg LED_MODE_ON 0 0 0 0 0 0)).
  - unfold LED_GREEN, LED_MAX. lia.
  - reflexivity.
Defined.

(** X3: for an identifier in range and a non-NULL request the return code
    is decided by the mode and the peer alone: success exactly for a
    recognized mode that is not ALTERNATE paired with the slot itself,
    [LED_ERROR_ALTERNATE_ID] for that pairing, [LED_ERROR_MODE_INVALID]
    for every other mode value; a NULL request is an invalid argument. *)
Theorem write_return_code g id c :
  id < LED_MAX ->
  (fst (lite_led_write g id (Some c)) = LED_ERROR_NONE
   <-> valid_mode (mode c) /\ ~ (mode c = LED_MODE_ALTERNATE /\ alter_id c = id))
  /\ (fst (lite_led_write g id (Some c)) = LED_ERROR_ALTERNATE_ID
      <-> mode c = LED_MODE_ALTERNATE /\ alter_id c = id)
  /\ (fst (lite_led_write g id (Some c)) = LED_ERROR_MODE_INVALID
      <-> ~ valid_mode (mode c))
  /\ lite_led_write g id None = (LED_ERROR_PARA_INVALID, g).
Proof.
  intros Hid. unfold lite_led_write.
  destruct (LED_MAX <=? id) eqn:E; [lia|]. cbn [fst].
  unfold write_record, valid_mode.
  unfold LED_MODE_OFF, LED_MODE_ON, LED_MODE_BLINK, LED_MODE_BREATH,
    LED_MODE_FADE_IN, LED_MODE_FADE_OUT, LED_MODE_ALTERNATE,
    LED_ERROR_NONE, LED_ERROR_ALTERNATE_ID, LED_ERROR_MODE_INVALID. cbv zeta.
  destruct (mode c =? 1) eqn:E1; destruct (mode c =? 0) eqn:E0;
    destruct (mode c =? 2) eqn:E2; destruct (mode c =? 3) eqn:E3;
    destruct (mode c =? 4) eqn:E4; destruct (mode c =? 5) eqn:E5;
    destruct (mode c =? 6) eqn:E6; destruct (id =? alter_id c) eqn:Ea;
    cbn [orb fst]; repeat split; intros; try discriminate; try lia.
Qed.

Lemma write_return_code_witness :
  fst (lite_led_write g_led_list_init LED_RED
         (Some (mk_cfg LED_MODE_ALTERNATE LED_WHITE 0 0 0 500 0))) = LED_ERROR_NONE.
Proof.
  apply (proj1 (write_return_code g_led_list_init LED_RED
                  (mk_cfg LED_MODE_ALTERNATE LED_WHITE 0 0 0 500 0)
                  ltac:(unfold LED_RED, LED_MAX; lia))).
  unfold valid_mode, LED_MODE_OFF, LED_MODE_ALTERNATE, LED_RED, LED_WHITE. simpl. lia.
Defined.

(** ** [lite_led_read] *)

(** X4: what [lite_led_read] reports right after a [lite_led_write] to the
    same slot, accepted or not: a status that owes nothing to what the
    slot showed before, with the full lifetime [duration_ms / 100], no
    event scheduled, state off, the expiry flag clear, and brightness 0,
    or 100 for FADE_OUT.  A NULL status pointer is an invalid argument. *)
Theorem read_after_write g id c s0 :
  0 <= id < LED_MAX -> length g = Z.to_nat LED_NUM ->
  (exists st,
     lite_led_read (snd (lite_led_write g id (Some c))) id (Some s0)
     = (LED_ERROR_NONE, Some st)
     /\ remain_tick st = duration_ms c / LED_POLL_PERIOD_MS
     /\ next_tick st = 0
     /\ state st = LED_STATE_OFF
     /\ dur_timeout st = false
     /\ percent st = (if mode c =? LED_MODE_FADE_OUT then LED_MAX_BRIGHTNESS
                      else LED_MIN_BRIGHTNESS))
  /\ lite_led_read g id None = (LED_ERROR_PARA_INVALID, None).
Proof.
  intros Hid Hlen. split; [|reflexivity].
  destruct (write_slot g id c Hid Hlen) as [_ Hs].
  exists (stat (snd (write_record (led_at g id) id c))).
  unfold lite_led_read.
  destruct (LED_NUM <=? id) eqn:E; [unfold LED_NUM in E; lia|].
  rewrite Hs. split; [reflexivity|].
  destruct (write_record_frame (led_at g id) id c)
    as (_ & _ & _ & _ & _ & _ & _ & _ & _ & Fr & Fn & Fs & Fd).
  repeat (split; [assumption|]).
  unfold write_record, write_phase_setup. cbv zeta.
  unfold LED_MODE_ON, LED_MODE_OFF, LED_MODE_BLINK, LED_MODE_BREATH,
    LED_MODE_FADE_IN, LED_MODE_FADE_OUT, LED_MODE_ALTERNATE.
  destruct (mode c =? 0) eqn:E0; destruct (mode c =? 1) eqn:E1;
    destruct (mode c =? 2) eqn:E2; destruct (mode c =? 3) eqn:E3;
    destruct (mode c =? 4) eqn:E4; destruct (mode c =? 5) eqn:E5;
    destruct (mode c =? 6) eqn:E6; destruct (id =? alter_id c) eqn:Ea;
    cbn [orb fst snd]; try lia; reflexivity.
Qed.

Lemma read_after_write_witness :
  exists st,
    lite_led_read
      (snd (lite_led_write
              (@ticks saturating64 1
                 (configured g_led_list_init LED_GREEN 1%positive
                    (mk_cfg LED_MODE_ON 0 0 0 0 0 0)))
              LED_GREEN (Some (mk_cfg LED_MODE_BLINK 0 200 800 0 0 5000))))
      LED_GREEN (Some status_zero)
    = (LED_ERROR_NONE, Some st)
    /\ remain_tick st = 50 /\ percent st = 0.
Proof.
  destruct (read_after_write
              (@ticks saturating64 1
                 (configured g_led_list_init LED_GREEN 1%positive
                    (mk_cfg LED_MODE_ON 0 0 0 0 0 0)))
              LED_GREEN (mk_cfg LED_MODE_BLINK 0 200 800 0 0 5000) status_zero
              ltac:(unfold LED_GREEN, LED_MAX; lia) eq_refl)
    as [(st & E & Hr & _ & _ & _ & Hp) _].
  exists st. repeat split; assumption.
Defined.

(** ** What [lite_led_poll_handle] does not do *)

Lemma poll_record_inert `{Platform} g i :
  set_percent_cb (led_at g i) = None -> poll_record g i = (led_at g i, []).
Proof. intros Hcb. unfold poll_record. rewrite Hcb. reflexivity. Qed.

Lemma poll_record_calls_shape `{Platform} g i :
  snd (poll_record g i) = []
  \/ exists cb, set_percent_cb (led_at g i) = Some cb
       /\ snd (poll_record g i)
          = [Call_set_percent cb (percent (stat (fst (poll_record g i))))].
Proof.
  unfold poll_record.
  destruct (set_percent_cb (led_at g i)) as [cb|]; [|left; reflexivity].
  repeat case_match; cbn [fst snd]; auto;
    right; exists cb; split; reflexivity.
Qed.

(** An iteration changes the status of its record and, at the end of a
    lifetime, the mode; nothing else. *)
Lemma poll_record_keeps `{Platform} g i :
  (Z.to_nat i < length g)%nat ->
  let d := led_at g i in
  let d' := fst (poll_record g i) in
  dev_id d' = dev_id d
  /\ set_percent_cb d' = set_percent_cb d
  /\ dur_timeout_cb d' = dur_timeout_cb d
  /\ dur_timeout (stat d') = dur_timeout (stat d)
  /\ set_tick_mode LED_MODE_OFF (cfg d') = set_tick_mode LED_MODE_OFF (cfg d)
  /\ (tick_mode (cfg d') = tick_mode (cfg d)
      \/ (tick_mode (cfg d') = LED_MODE_OFF /\ remain_tick (stat d) = 1)).
Proof.
  intros Hi. cbv zeta. unfold poll_record.
  destruct (set_percent_cb (led_at g i)) as [cb|] eqn:Ecb.
  2:{ cbn [fst]. rewrite Ecb. repeat split; auto. }
  assert (Hmh : forall d2,
            dev_id d2 = dev_id (led_at g i) -> cfg d2 = cfg (led_at g i) ->
            set_percent_cb d2 = Some cb ->
            dur_timeout_cb d2 = dur_timeout_cb (led_at g i) ->
            dur_timeout (stat d2) = dur_timeout (stat (led_at g i)) ->
            let d3 := mode_handling (led_store g i d2) i in
            dev_id d3 = dev_id (led_at g i)
            /\ set_percent_cb d3 = Some cb
            /\ dur_timeout_cb d3 = dur_timeout_cb (led_at g i)
            /\ dur_timeout (stat d3) = dur_timeout (stat (led_at g i))
            /\ set_tick_mode LED_MODE_OFF (cfg d3)
               = set_tick_mode LED_MODE_OFF (cfg (led_at g i))
            /\ (tick_mode (cfg d3) = tick_mode (cfg (led_at g i))
                \/ (tick_mode (cfg d3) = LED_MODE_OFF
                    /\ remain_tick (stat (led_at g i)) = 1))).
  { intros d2 H1 H2 H3 H4 H5. cbv zeta.
    pose proof (mode_handling_frame (led_store g i d2) i) as F. cbv zeta in F.
    rewrite led_at_store_eq in F by exact Hi.
    destruct F as (Fi & Fc & Fcb & Fd & _ & Ft).
    rewrite Fi, Fc, Fcb, Fd, Ft, H1, H2, H3, H4, H5. repeat split; auto. }
  destruct (remain_tick (stat (led_at g i)) =? 0) eqn:Er.
  - cbn [negb andb].
    destruct (next_tick (stat (led_at g i)) =? LED_BLOCK_FOREVER);
      [cbn [fst]; rewrite Ecb; repeat split; auto|].
    destruct (next_tick (stat (led_at g i)) =? 0); cbn [negb andb].
    + cbn [fst]. apply Hmh; auto.
    + match goal with |- context [negb ?b] => destruct b end; cbn [negb fst].
      * apply Hmh; record_simpl; auto.
      * record_simpl. rewrite Ecb. repeat split; auto.
  - cbn [negb andb]. record_simpl.
    destruct (remain_tick (stat (led_at g i)) - 1 =? 0) eqn:Er1.
    + cbn [fst]. record_simpl. rewrite Ecb. repeat split; auto.
      right. split; [reflexivity|]. apply Z.eqb_eq in Er1. lia.
    + destruct (next_tick (stat (led_at g i)) =? LED_BLOCK_FOREVER);
        [cbn [fst]; record_simpl; rewrite Ecb; repeat split; auto|].
      destruct (next_tick (stat (led_at g i)) =? 0); cbn [negb andb].
      * cbn [fst]. apply Hmh; record_simpl; auto.
      * match goal with |- context [negb ?b] => destruct b end; cbn [negb fst].
        -- apply Hmh; record_simpl; auto.
        -- record_simpl. rewrite Ecb. repeat split; auto.
Qed.

Lemma poll_prefix_tags `{Platform} k g j c :
  In (j, c) (snd (poll_prefix k g)) -> 0 <= j < Z.of_nat k.
Proof.
  induction k as [|k IH]; [intros []|].
  rewrite poll_prefix_S, poll_step_snd. intros Hin.
  apply in_app_or in Hin. destruct Hin as [Hin | Hin].
  - specialize (IH Hin). lia.
  - apply in_map_iff in Hin. destruct Hin as (c' & E & _).
    injection E as <- _. lia.
Qed.

(** X5: one call of the tick handler keeps, for every record, the
    identifier, both callback pointers, the expired flag and the
    configuration; only the mode may change, and only to OFF on the tick
    on which the lifetime countdown goes from 1 to 0.  The registry keeps
    its size. *)
Theorem poll_handle_keeps_configuration `{Platform} g i :
  length g = Z.to_nat LED_NUM -> 0 <= i < LED_NUM ->
  let d := led_at g i in
  let d' := led_at (fst (lite_led_poll_handle g)) i in
  length (fst (lite_led_poll_handle g)) = length g
  /\ dev_id d' = dev_id d
  /\ set_percent_cb d' = set_percent_cb d
  /\ dur_timeout_cb d' = dur_timeout_cb d
  /\ dur_timeout (stat d') = dur_timeout (stat d)
  /\ set_tick_mode LED_MODE_OFF (cfg d') = set_tick_mode LED_MODE_OFF (cfg d)
  /\ (tick_mode (cfg d') = tick_mode (cfg d)
      \/ (tick_mode (cfg d') = LED_MODE_OFF /\ remain_tick (stat d) = 1)).
Proof.
  intros Hlen Hi. cbv zeta. split; [apply poll_handle_length|].
  rewrite poll_handle_record by assumption.
  pose proof (poll_record_keeps (seen_by g i) i) as K. cbv zeta in K.
  rewrite seen_by_self in K by lia. apply K.
  rewrite seen_by_length. lia.
Qed.

Lemma poll_handle_keeps_configuration_witness :
  let g := configured g_led_list_init LED_GREEN 1%positive
             (mk_cfg LED_MODE_ON 0 0 0 0 0 100) in
  tick_mode (cfg (led_at (fst (@lite_led_poll_handle saturating64 g)) LED_GREEN))
    = tick_mode (cfg (led_at g LED_GREEN))
  \/ (tick_mode (cfg (led_at (fst (@lite_led_poll_handle saturating64 g)) LED_GREEN))
        = LED_MODE_OFF
      /\ remain_tick (stat (led_at g LED_GREEN)) = 1).
Proof.
  apply (@poll_handle_keeps_configuration saturating64
           (configured g_led_list_init LED_GREEN 1%positive
              (mk_cfg LED_MODE_ON 0 0 0 0 0 100)) LED_GREEN).
  - reflexivity.
  - unfold LED_GREEN, LED_NUM, LED_MAX. lia.
Defined.

(** X6: during one call of the tick handler at most one call is made for
    each record, and every call is a brightness call through the record's
    own [set_percent_cb], passing the brightness the record holds after
    the call, which is what [lite_led_read] then reports; calls are made
    for identifiers below [LED_NUM] only. *)
Theorem poll_handle_calls_shape `{Platform} g i :
  length g = Z.to_nat LED_NUM -> 0 <= i < LED_NUM ->
  let g' := fst (lite_led_poll_handle g) in
  let tr := snd (lite_led_poll_handle g) in
  (calls_of i tr = []
   \/ exists cb st,
        set_percent_cb (led_at g i) = Some cb
        /\ lite_led_read g' i (Some status_zero) = (LED_ERROR_NONE, Some st)
        /\ calls_of i tr = [Call_set_percent cb (percent st)])
  /\ (forall j c, In (j, c) tr -> 0 <= j < LED_NUM).
Proof.
  intros Hlen Hi. cbv zeta. split.
  - rewrite poll_handle_calls by assumption.
    destruct (poll_record_calls_shape (seen_by g i) i) as [E | (cb & Ecb & E)];
      [left; exact E | right].
    rewrite seen_by_self in Ecb by lia.
    exists cb, (stat (led_at (fst (lite_led_poll_handle g)) i)).
    split; [exact Ecb|]. split.
    + unfold lite_led_read. destruct (LED_NUM <=? i) eqn:El; [lia | reflexivity].
    + rewrite poll_handle_record by assumption. exact E.
  - intros j c Hin. rewrite poll_handle_prefix in Hin.
    apply poll_prefix_tags in Hin. unfold LED_NUM, LED_MAX in *. lia.
Qed.

Lemma poll_handle_calls_shape_witness :
  let g := configured g_led_list_init LED_GREEN 1%positive
             (mk_cfg LED_MODE_ON 0 0 0 0 0 0) in
  calls_of LED_GREEN (snd (@lite_led_poll_handle saturating64 g)) = []
  \/ exists cb st,
       set_percent_cb (led_at g LED_GREEN) = Some cb
       /\ lite_led_read (fst (@lite_led_poll_handle saturating64 g)) LED_GREEN
            (Some status_zero)
          = (LED_ERROR_NONE, Some st)
       /\ calls_of LED_GREEN (snd (@lite_led_poll_handle saturating64 g))
          = [Call_set_percent cb (percent st)].
Proof.
  destruct (@poll_handle_calls_shape saturating64
              (configured g_led_list_init LED_GREEN 1%positive
                 (mk_cfg LED_MODE_ON 0 0 0 0 0 0)) LED_GREEN) as [Hc _].
  - reflexivity.
  - unfold LED_GREEN, LED_NUM, LED_MAX. lia.
  - exact Hc.
Defined.

(** ** Records the engine passes over *)

(** X7: a record without a brightness callback is inert.  Whatever is
    written to a slot that was never initialized, the write is accepted or
    rejected as usual, but no tick changes the record or makes a call for
    it. *)
Theorem uninitialized_record_is_inert `{Platform} g id c n :
  length g = Z.to_nat LED_NUM -> 0 <= id < LED_NUM ->
  set_percent_cb (led_at g id) = None ->
  let g' := snd (lite_led_write g id (Some c)) in
  led_at (ticks n g') id = led_at g' id
  /\ tick_calls (S n) g' id = []
  /\ led_at (ticks n g) id = led_at g id
  /\ tick_calls (S n) g id = [].
Proof.
  intros Hlen Hid Hcb g'.
  assert (Hinert : forall G, length G = Z.to_nat LED_NUM ->
            set_percent_cb (led_at G id) = None ->
            forall k, led_at (ticks k G) id = led_at G id
                      /\ tick_calls (S k) G id = []).
  { intros G HG HcbG.
    assert (Hrec : forall k, led_at (ticks k G) id = led_at G id).
    { induction k as [|k IH]; [reflexivity|].
      rewrite ticks_S_record by assumption.
      rewrite poll_record_inert; rewrite seen_by_self by lia; rewrite IH; auto. }
    intros k. split; [apply Hrec|].
    rewrite tick_calls_S by assumption.
    rewrite poll_record_inert; [reflexivity|].
    rewrite seen_by_self by lia. rewrite Hrec. exact HcbG. }
  destruct (write_slot g id c Hid Hlen) as [Hw Hs].
  pose proof (write_record_frame (led_at g id) id c) as F. cbv zeta in F.
  destruct F as (_ & F2 & _).
  destruct (Hinert g' ) with (k := n) as [E1 E2].
  { unfold g'. rewrite Hw. cbn [snd]. rewrite length_led_store. exact Hlen. }
  { unfold g'. rewrite Hs, F2. exact Hcb. }
  destruct (Hinert g Hlen Hcb n) as [E3 E4].
  auto.
Qed.

Lemma uninitialized_record_is_inert_witness :
  let g' := snd (lite_led_write g_led_list_init LED_GREEN
                   (Some (mk_cfg LED_MODE_ON 0 0 0 0 0 0))) in
  led_at (@ticks saturating64 3 g') LED_GREEN = led_at g' LED_GREEN
  /\ @tick_calls saturating64 4 g' LED_GREEN = [].
Proof.
  destruct (@uninitialized_record_is_inert saturating64 g_led_list_init LED_GREEN
              (mk_cfg LED_MODE_ON 0 0 0 0 0 0) 3) as (E1 & E2 & _).
  - reflexivity.
  - unfold LED_GREEN, LED_NUM, LED_MAX. lia.
  - reflexivity.
  - split; [exact E1 | exact E2].
Defined.

(** X8: a record in any mode but ALTERNATE is processed on its own: what
    the ticks do to it and the calls they make for it depend on the record
    alone, not on the rest of the registry. *)
Theorem non_alternate_record_is_independent `{Platform} g1 g2 i n :
  length g1 = Z.to_nat LED_NUM -> length g2 = Z.to_nat LED_NUM ->
  0 <= i < LED_NUM ->
  led_at g1 i = led_at g2 i ->
  tick_mode (cfg (led_at g1 i)) <> LED_MODE_ALTERNATE ->
  led_at (ticks n g1) i = led_at (ticks n g2) i
  /\ tick_calls (S n) g1 i = tick_calls (S n) g2 i.
Proof.
  intros H1 H2 Hi E Hm.
  destruct (ticks_solo g1 i Hi H1 Hm n) as [A1 B1].
  assert (Hm2 : tick_mode (cfg (led_at g2 i)) <> LED_MODE_ALTERNATE)
    by (rewrite <- E; exact Hm).
  destruct (ticks_solo g2 i Hi H2 Hm2 n) as [A2 B2].
  rewrite A1, A2, B1, B2, E. auto.
Qed.

Lemma non_alternate_record_is_independent_witness :
  let c := mk_cfg LED_MODE_BLINK 0 200 800 0 0 0 in
  let g1 := configured g_led_list_init LED_BLUE 1%positive c in
  let g2 := configured
              (configured g_led_list_init LED_RED 2%positive
                 (mk_cfg LED_MODE_BREATH 0 0 0 1000 0 0))
              LED_BLUE 1%positive c in
  led_at (@ticks saturating64 7 g1) LED_BLUE = led_at (@ticks saturating64 7 g2) LED_BLUE
  /\ @tick_calls saturating64 8 g1 LED_BLUE = @tick_calls saturating64 8 g2 LED_BLUE.
Proof.
  apply (@non_alternate_record_is_independent saturating64); try reflexivity.
  - unfold LED_BLUE, LED_NUM, LED_MAX. lia.
  - discriminate.
Defined.

(** ** Steady modes *)

Lemma poll_record_on_dispatch `{Platform} g i cb :
  (Z.to_nat i < length g)%nat ->
  set_percent_cb (led_at g i) = Some cb ->
  remain_tick (stat (led_at g i)) = 0 ->
  next_tick (stat (led_at g i)) = 0 ->
  tick_mode (cfg (led_at g i)) = LED_MODE_ON ->
  poll_record g i
  = (upd_stat (fun s => set_next_tick LED_BLOCK_FOREVER
                 (set_percent LED_MAX_BRIGHTNESS (set_state LED_STATE_ON s)))
       (led_at g i),
     [Call_set_percent cb LED_MAX_BRIGHTNESS]).
Proof.
  intros Hi Hcb Hr Hn Hm. unfold poll_record. rewrite Hcb, Hr.
  cbn [Z.eqb negb andb]. rewrite Hn. cbn [Z.eqb negb andb].
  unfold mode_handling. rewrite led_at_store_eq by exact Hi.
  rewrite Hm. reflexivity.
Qed.

(** X9: a record that has been initialized and not configured is in mode
    OFF with nothing scheduled: the first tick calls its callback with
    brightness 0 and blocks it, and no later tick touches it or calls
    again. *)
Theorem initialized_record_is_switched_off `{Platform} g id cb :
  length g = Z.to_nat LED_NUM -> 0 <= id < LED_NUM ->
  let g' := snd (lite_led_init g id (Some cb)) in
  observed 1 g' id = (0, LED_BLOCK_FOREVER, [Call_set_percent cb 0])
  /\ forall n, led_at (ticks (S n) g') id = led_at (ticks 1 g') id
               /\ tick_calls (S (S n)) g' id = [].
Proof.
  intros Hlen Hid g'.
  destruct (init_slot g id cb Hid Hlen) as [E Es]. fold g' in Es.
  assert (Hlen' : length g' = Z.to_nat LED_NUM).
  { unfold g'. rewrite E. cbn [snd]. rewrite length_led_store. exact Hlen. }
  assert (H1 : poll_record (seen_by g' id) id
               = (upd_stat (fun s => set_next_tick LED_BLOCK_FOREVER
                      (set_percent LED_MIN_BRIGHTNESS (set_state LED_STATE_OFF s)))
                    (led_at g' id),
                  [Call_set_percent cb LED_MIN_BRIGHTNESS])).
  { rewrite <- (seen_by_self g' id id) by lia.
    apply poll_record_off_dispatch;
      rewrite ?seen_by_length, ?seen_by_self, ?Es by lia; try reflexivity. lia. }
  assert (E1 : led_at (ticks 1 g') id
               = upd_stat (fun s => set_next_tick LED_BLOCK_FOREVER
                      (set_percent LED_MIN_BRIGHTNESS (set_state LED_STATE_OFF s)))
                    (led_at g' id)).
  { rewrite ticks_S_record by assumption. cbn [ticks]. now rewrite H1. }
  split.
  - unfold observed. rewrite E1, (tick_calls_S 0) by assumption. cbn [ticks].
    rewrite H1, Es. reflexivity.
  - intros n. replace (S n) with (n + 1)%nat by lia. rewrite ticks_add.
    change (S (n + 1)) with (S n + 1)%nat. rewrite tick_calls_add.
    apply ticks_blocked; try assumption.
    + rewrite ticks_length. exact Hlen'.
    + rewrite E1, Es. reflexivity.
    + rewrite E1. reflexivity.
Qed.

Lemma initialized_record_is_switched_off_witness :
  let g' := snd (lite_led_init g_led_list_init LED_WHITE (Some 4%positive)) in
  @observed saturating64 1 g' LED_WHITE
  = (0, LED_BLOCK_FOREVER, [Call_set_percent 4%positive 0]).
Proof.
  apply (@initialized_record_is_switched_off saturating64 g_led_list_init LED_WHITE
           4%positive).
  - reflexivity.
  - unfold LED_WHITE, LED_NUM, LED_MAX. lia.
Defined.

(** X10: ON and OFF without a lifetime.  The first tick after the write
    sets the state, calls the callback once, with 100 for ON and 0 for
    OFF, and blocks the record; no later tick changes it or calls
    again. *)
Theorem steady_mode_settles_in_one_tick `{Platform} g id cb c :
  length g = Z.to_nat LED_NUM -> 0 <= id < LED_NUM ->
  mode c = LED_MODE_ON \/ mode c = LED_MODE_OFF ->
  duration_ms c / LED_POLL_PERIOD_MS = 0 ->
  let g0 := configured g id cb c in
  let level := if mode c =? LED_MODE_ON then LED_MAX_BRIGHTNESS
               else LED_MIN_BRIGHTNESS in
  observed 1 g0 id = (level, LED_BLOCK_FOREVER, [Call_set_percent cb level])
  /\ state (stat (led_at (ticks 1 g0) id))
     = (if mode c =? LED_MODE_ON then LED_STATE_ON else LED_STATE_OFF)
  /\ forall n, led_at (ticks (S n) g0) id = led_at (ticks 1 g0) id
               /\ tick_calls (S (S n)) g0 id = [].
Proof.
  intros Hlen Hid Hm Hd g0 level.
  assert (Hlen0 : length g0 = Z.to_nat LED_NUM)
    by (unfold g0; rewrite configured_length; exact Hlen).
  pose proof (configured_slot g id cb c Hid Hlen) as Hs. fold g0 in Hs.
  pose proof (write_record_frame (mk_dev id inner_zero status_zero (Some cb) None) id c)
    as F. cbv zeta in F. rewrite <- Hs in F.
  destruct F as (_ & Fcb & _ & Fm & _ & _ & _ & _ & _ & Fr & Fn & _).
  rewrite Hd in Fr. cbn [set_percent_cb] in Fcb.
  assert (Hseen : led_at (seen_by g0 id) id = led_at g0 id)
    by (apply seen_by_self; lia).
  assert (Hrange : (Z.to_nat id < length (seen_by g0 id))%nat)
    by (rewrite seen_by_length; lia).
  assert (H1 : poll_record (seen_by g0 id) id
               = (upd_stat (fun s => set_next_tick LED_BLOCK_FOREVER
                      (set_percent level
                         (set_state (if mode c =? LED_MODE_ON then LED_STATE_ON
                                     else LED_STATE_OFF) s)))
                    (led_at g0 id),
                  [Call_set_percent cb level])).
  { rewrite <- Hseen. unfold level. destruct Hm as [Hm | Hm]; rewrite Hm.
    - apply poll_record_on_dispatch; rewrite ?Hseen; congruence.
    - apply poll_record_off_dispatch; rewrite ?Hseen; congruence. }
  assert (E1 : led_at (ticks 1 g0) id = fst (poll_record (seen_by g0 id) id)).
  { rewrite ticks_S_record by assumption. reflexivity. }
  rewrite H1 in E1. cbn [fst] in E1.
  split; [|split].
  - unfold observed. rewrite E1, (tick_calls_S 0) by assumption. cbn [ticks].
    rewrite H1. reflexivity.
  - rewrite E1. reflexivity.
  - intros n. replace (S n) with (n + 1)%nat by lia. rewrite ticks_add.
    change (S (n + 1)) with (S n + 1)%nat. rewrite tick_calls_add.
    apply ticks_blocked; try assumption.
    + rewrite ticks_length. exact Hlen0.
    + rewrite E1. exact Fr.
    + rewrite E1. reflexivity.
Qed.

Lemma steady_mode_settles_in_one_tick_witness :
  @observed saturating64 1
     (configured g_led_list_init LED_GREEN 1%positive (mk_cfg LED_MODE_ON 0 0 0 0 0 0))
     LED_GREEN
  = (100, LED_BLOCK_FOREVER, [Call_set_percent 1%positive 100]).
Proof.
  apply (@steady_mode_settles_in_one_tick saturating64 g_led_list_init LED_GREEN
           1%positive (mk_cfg LED_MODE_ON 0 0 0 0 0 0)).
  - reflexivity.
  - unfold LED_GREEN, LED_NUM, LED_MAX. lia.
  - left. reflexivity.
  - reflexivity.
Defined.

(** ** Lifetimes *)

(** X11: a lifetime of [r + 1] ticks, in any mode and whatever the mode
    does meanwhile.  The countdown loses one per tick and the configured
    mode stays through tick [r]; tick [r + 1] forces the mode to OFF,
    clears both countdowns and makes no call at all, brightness and state
    staying as they were; tick [r + 2] sets state off and brightness 0
    and calls the brightness callback with 0; after that the record is
    never changed and never called again. *)
Theorem lifetime_runs_out `{Platform} g id cb c (r : nat) :
  length g = Z.to_nat LED_NUM -> 0 <= id < LED_NUM ->
  duration_ms c / LED_POLL_PERIOD_MS = Z.of_nat (S r) ->
  let g0 := configured g id cb c in
  let led n := led_at (ticks n g0) id in
  (forall n, (n <= r)%nat ->
     tick_mode (cfg (led n)) = mode c
     /\ remain_tick (stat (led n)) = Z.of_nat (S r) - Z.of_nat n)
  /\ (tick_mode (cfg (led (S r))) = LED_MODE_OFF
      /\ stat (led (S r)) = set_next_tick 0 (set_remain_tick 0 (stat (led r)))
      /\ tick_calls (S r) g0 id = [])
  /\ (percent (stat (led (S (S r)))) = 0
      /\ state (stat (led (S (S r)))) = LED_STATE_OFF
      /\ next_tick (stat (led (S (S r)))) = LED_BLOCK_FOREVER
      /\ tick_calls (S (S r)) g0 id = [Call_set_percent cb 0])
  /\ (forall n, (S (S r) <= n)%nat ->
        led n = led (S (S r)) /\ tick_calls (S n) g0 id = []).
Proof.
  intros Hlen Hid Hd g0 led.
  assert (Hlen0 : length g0 = Z.to_nat LED_NUM)
    by (unfold g0; rewrite configured_length; exact Hlen).
  pose proof (configured_slot g id cb c Hid Hlen) as Hs. fold g0 in Hs.
  pose proof (write_record_frame (mk_dev id inner_zero status_zero (Some cb) None) id c)
    as F. cbv zeta in F. rewrite <- Hs in F.
  destruct F as (_ & Fcb & _ & Fm & _ & _ & _ & _ & _ & Fr & _).
  rewrite Hd in Fr. cbn [set_percent_cb] in Fcb.
  assert (Hcount : forall n, (n <= r)%nat ->
            remain_tick (stat (led n)) = Z.of_nat (S r) - Z.of_nat n
            /\ cfg (led n) = cfg (led_at g0 id) /\ set_percent_cb (led n) = Some cb).
  { intros n Hn.
    destruct (ticks_countdown g0 id cb (Z.of_nat (S r)) n Hid Hlen0 Fcb Fr)
      as (A & B & C & _); [lia|]. auto. }
  destruct (Hcount r) as (Hrr & Hrc & Hrcb); [lia|].
  assert (Hseen : forall n, led_at (seen_by (ticks n g0) id) id = led n)
    by (intros n; apply seen_by_self; lia).
  assert (Hrange : forall n, (Z.to_nat id < length (seen_by (ticks n g0) id))%nat)
    by (intros n; rewrite seen_by_length, ticks_length; lia).
  assert (H5 : poll_record (seen_by (ticks r g0) id) id
               = (upd_stat (set_next_tick 0)
                    (upd_cfg (set_tick_mode LED_MODE_OFF)
                       (upd_stat (set_remain_tick 0) (led r))), [])).
  { rewrite <- Hseen. apply (poll_record_expiry _ _ cb); rewrite Hseen; auto. lia. }
  assert (E5 : led (S r) = upd_stat (set_next_tick 0)
                 (upd_cfg (set_tick_mode LED_MODE_OFF)
                    (upd_stat (set_remain_tick 0) (led r)))).
  { unfold led at 1. rewrite ticks_S_record by assumption. now rewrite H5. }
  assert (H6 : poll_record (seen_by (ticks (S r) g0) id) id
               = (upd_stat (fun s => set_next_tick LED_BLOCK_FOREVER
                      (set_percent LED_MIN_BRIGHTNESS (set_state LED_STATE_OFF s)))
                    (led (S r)),
                  [Call_set_percent cb LED_MIN_BRIGHTNESS])).
  { rewrite <- Hseen. apply poll_record_off_dispatch;
      rewrite ?Hseen, ?E5; record_simpl; auto. }
  assert (E6 : led (S (S r)) = upd_stat (fun s => set_next_tick LED_BLOCK_FOREVER
                      (set_percent LED_MIN_BRIGHTNESS (set_state LED_STATE_OFF s)))
                    (led (S r))).
  { unfold led at 1. rewrite ticks_S_record by assumption. now rewrite H6. }
  split; [|split; [|split]].
  - intros n Hn. destruct (Hcount n Hn) as (A & -> & _). split; [exact Fm | exact A].
  - rewrite E5. record_simpl. repeat split.
    rewrite (tick_calls_S r) by assumption. rewrite H5. reflexivity.
  - rewrite E6. record_simpl. repeat split.
    rewrite (tick_calls_S (S r)) by assumption. rewrite H6. reflexivity.
  - intros n Hn. replace n with ((n - S (S r)) + S (S r))%nat by lia.
    unfold led. rewrite ticks_add.
    change (S (n - S (S r) + S (S r))) with (S (n - S (S r)) + S (S r))%nat.
    rewrite tick_calls_add.
    replace (n - S (S r) + S (S r) - S (S r))%nat with (n - S (S r))%nat by lia.
    apply ticks_blocked; try assumption.
    + rewrite ticks_length. exact Hlen0.
    + fold (led (S (S r))). rewrite E6, E5. reflexivity.
    + fold (led (S (S r))). rewrite E6. reflexivity.
Qed.

Lemma lifetime_runs_out_witness :
  let g0 := configured g_led_list_init LED_RED 3%positive
              (mk_cfg LED_MODE_ALTERNATE LED_WHITE 0 0 0 500 3000) in
  tick_mode (cfg (led_at (@ticks saturating64 30 g0) LED_RED)) = LED_MODE_OFF
  /\ @tick_calls saturating64 31 g0 LED_RED = [Call_set_percent 3%positive 0].
Proof.
  destruct (@lifetime_runs_out saturating64 g_led_list_init LED_RED 3%positive
              (mk_cfg LED_MODE_ALTERNATE LED_WHITE 0 0 0 500 3000) 29)
    as (_ & (H5 & _) & (_ & _ & _ & H6) & _).
  - reflexivity.
  - unfold LED_RED, LED_NUM, LED_MAX. lia.
  - reflexivity.
  - split; [exact H5 | exact H6].
Defined.

(** ** Lifetimes and effects *)

(** The engine never reads [duration_tick]. *)
Lemma mode_handling_duration_tick `{Platform} d v :
  mode_handling [upd_cfg (set_duration_tick v) d] 0
  = upd_cfg (set_duration_tick v) (mode_handling [d] 0).
Proof.
  assert (Hpeer : forall a, state (stat (led_at [upd_cfg (set_duration_tick v) d] a))
                            = state (stat (led_at [d] a))).
  { intros a. unfold led_at. destruct (Z.to_nat a) as [|k]; reflexivity. }
  unfold mode_handling. rewrite !led_at_singleton. cbv zeta.
  change (tick_mode (cfg (upd_cfg (set_duration_tick v) d))) with (tick_mode (cfg d)).
  change (tick_alter_id (cfg (upd_cfg (set_duration_tick v) d)))
    with (tick_alter_id (cfg d)).
  change (dev_id (upd_cfg (set_duration_tick v) d)) with (dev_id d).
  destruct (tick_mode (cfg d) =? LED_MODE_OFF); [reflexivity|].
  destruct (tick_mode (cfg d) =? LED_MODE_ON); [reflexivity|].
  destruct (tick_mode (cfg d) =? LED_MODE_BLINK); [reflexivity|].
  destruct (_ || _); [reflexivity|].
  destruct (tick_mode (cfg d) =? LED_MODE_ALTERNATE); [|reflexivity].
  destruct (LED_NUM <=? tick_alter_id (cfg d)); [reflexivity|].
  rewrite Hpeer. reflexivity.
Qed.

Lemma solo_duration_tick `{Platform} d v :
  poll_record [upd_cfg (set_duration_tick v) d] 0
  = (upd_cfg (set_duration_tick v) (fst (poll_record [d] 0)),
     snd (poll_record [d] 0)).
Proof.
  destruct d as [i [m al ont oft fdt alt dut] [p st k r ph ps dt] cb dcb].
  assert (Hmh : forall k' r',
            mode_handling
              [mk_dev i (mk_inner m al ont oft fdt alt v)
                 (mk_status p st k' r' ph ps dt) cb dcb] 0
            = upd_cfg (set_duration_tick v)
                (mode_handling
                   [mk_dev i (mk_inner m al ont oft fdt alt dut)
                      (mk_status p st k' r' ph ps dt) cb dcb] 0)).
  { intros k' r'. rewrite <- mode_handling_duration_tick. reflexivity. }
  unfold poll_record. rewrite !led_at_singleton.
  unfold set_duration_tick at 1 2 3. record_norm.
  destruct cb as [cb|]; [|reflexivity].
  destruct (r =? 0); cbn [negb andb]; record_norm.
  - destruct (k =? LED_BLOCK_FOREVER); [reflexivity|].
    destruct (k =? 0); cbn [negb andb]; record_norm.
    + unfold led_store. cbn [Z.to_nat]. simpl (<[_:=_]> _).
      rewrite Hmh. reflexivity.
    + destruct (k - 1 =? 0); cbn [negb]; [|reflexivity].
      unfold led_store. cbn [Z.to_nat]. simpl (<[_:=_]> _).
      rewrite Hmh. reflexivity.
  - destruct (r - 1 =? 0); [reflexivity|]. cbn [andb].
    destruct (k =? LED_BLOCK_FOREVER); [reflexivity|].
    destruct (k =? 0); cbn [negb andb]; record_norm.
    + unfold led_store. cbn [Z.to_nat]. simpl (<[_:=_]> _).
      rewrite Hmh. reflexivity.
    + destruct (k - 1 =? 0); cbn [negb]; [|reflexivity].
      unfold led_store. cbn [Z.to_nat]. simpl (<[_:=_]> _).
      rewrite Hmh. reflexivity.
Qed.

Lemma solo_ticks_duration_tick `{Platform} d v n :
  solo_ticks n (upd_cfg (set_duration_tick v) d)
  = upd_cfg (set_duration_tick v) (solo_ticks n d)
  /\ solo_calls (solo_ticks n (upd_cfg (set_duration_tick v) d))
     = solo_calls (solo_ticks n d).
Proof.
  induction n as [|n [IH _]].
  - split; [reflexivity|]. cbn [solo_ticks]. unfold solo_calls.
    now rewrite solo_duration_tick.
  - cbn [solo_ticks]. rewrite IH. unfold solo_tick, solo_calls.
    repeat (rewrite solo_duration_tick; cbn [fst snd]). auto.
Qed.

(** X12: until it runs out, a lifetime does not change the effect.  For
    every mode but ALTERNATE and every tick before the last of the
    lifetime, the brightness, the event countdown and the calls of the
    tick are those of the same request written with [duration_ms = 0]. *)
Theorem lifetime_is_transparent `{Platform} g id cb c n :
  length g = Z.to_nat LED_NUM -> 0 <= id < LED_NUM ->
  mode c <> LED_MODE_ALTERNATE ->
  alive (duration_ms c / LED_POLL_PERIOD_MS) (S n) ->
  observed (S n) (configured g id cb c) id
  = observed (S n) (configured g id cb (set_duration_ms 0 c)) id.
Proof.
  intros Hlen Hid Hm Hal.
  set (w := snd (write_record (mk_dev id inner_zero status_zero (Some cb) None) id
                   (set_duration_ms 0 c))).
  set (r := duration_ms c / LED_POLL_PERIOD_MS) in *.
  pose proof (write_record_frame (mk_dev id inner_zero status_zero (Some cb) None) id
                (set_duration_ms 0 c)) as F. cbv zeta in F. fold w in F.
  destruct F as (_ & Fcb & _ & Fm & _ & _ & _ & _ & _ & Fr & _).
  cbn [set_percent_cb mode duration_ms set_duration_ms] in Fcb, Fm, Fr.
  change (0 / LED_POLL_PERIOD_MS) with 0 in Fr.
  assert (Hw0 : with_remain 0 w = w).
  { rewrite <- Fr at 1. apply with_remain_same. }
  assert (Hwc : led_at (configured g id cb c) id
                = with_remain r (upd_cfg (set_duration_tick r) w)).
  { rewrite configured_slot by assumption. unfold w, r, write_record, write_phase_setup.
    destruct c as [m a on off fd al du].
    cbn [mode alter_id on_ms off_ms fade_ms alternate_ms duration_ms set_duration_ms].
    change (0 / LED_POLL_PERIOD_MS) with 0.
    repeat case_match; reflexivity. }
  rewrite (observed_S (configured g id cb c) id (upd_cfg (set_duration_tick r) w) cb r n);
    try assumption.
  2:{ rewrite configured_length. exact Hlen. }
  2:{ cbn [cfg upd_cfg tick_mode set_duration_tick]. rewrite Fm. exact Hm. }
  rewrite (observed_S (configured g id cb (set_duration_ms 0 c)) id w cb 0 n);
    try assumption.
  2:{ rewrite configured_length. exact Hlen. }
  2:{ rewrite configured_slot by assumption. fold w. symmetry. exact Hw0. }
  2:{ rewrite Fm. exact Hm. }
  2:{ left. reflexivity. }
  change (with_remain 0 (upd_cfg (set_duration_tick r) w))
    with (upd_cfg (set_duration_tick r) (with_remain 0 w)).
  destruct (solo_ticks_duration_tick (with_remain 0 w) r (S n)) as [E1 _].
  destruct (solo_ticks_duration_tick (with_remain 0 w) r n) as [_ E2].
  rewrite E1, E2. reflexivity.
Qed.

Lemma lifetime_is_transparent_witness :
  let c := mk_cfg LED_MODE_BLINK 0 200 800 0 0 5000 in
  @observed saturating64 11 (configured g_led_list_init LED_BLUE 1%positive c) LED_BLUE
  = @observed saturating64 11
      (configured g_led_list_init LED_BLUE 1%positive (set_duration_ms 0 c)) LED_BLUE.
Proof.
  apply (@lifetime_is_transparent saturating64 g_led_list_init LED_BLUE 1%positive
           (mk_cfg LED_MODE_BLINK 0 200 800 0 0 5000) 10).
  - reflexivity.
  - unfold LED_BLUE, LED_NUM, LED_MAX. lia.
  - discriminate.
  - right. vm_compute. reflexivity.
Defined.

(** ** BLINK in general *)

Lemma poll_record_blink `{Platform} g i cb :
  let d := led_at g i in
  (Z.to_nat i < length g)%nat ->
  set_percent_cb d = Some cb -> tick_mode (cfg d) = LED_MODE_BLINK ->
  remain_tick (stat d) = 0 -> next_tick (stat d) <> LED_BLOCK_FOREVER ->
  poll_record g i
  = let k := next_tick (stat d) in
    if (k =? 0) || (k - 1 =? 0)
    then
      if state (stat d) =? LED_STATE_OFF
      then (upd_stat (fun s => set_state (lnot (state s))
                       (set_percent LED_MAX_BRIGHTNESS
                          (set_next_tick (on_tick (cfg d)) s))) d,
            [Call_set_percent cb LED_MAX_BRIGHTNESS])
      else (upd_stat (fun s => set_state (lnot (state s))
                       (set_percent LED_MIN_BRIGHTNESS
                          (set_next_tick (off_tick (cfg d)) s))) d,
            [Call_set_percent cb LED_MIN_BRIGHTNESS])
    else (upd_stat (set_next_tick (k - 1)) d, []).
Proof.
  intros d Hi Hcb Hm Hr Hk.
  assert (Hmh : forall d2,
            cfg d2 = cfg d -> state (stat d2) = state (stat d) ->
            mode_handling (led_store g i d2) i
            = upd_stat (fun s =>
                let s' :=
                  if state s =? LED_STATE_OFF
                  then set_percent LED_MAX_BRIGHTNESS (set_next_tick (on_tick (cfg d)) s)
                  else set_percent LED_MIN_BRIGHTNESS (set_next_tick (off_tick (cfg d)) s) in
                set_state (lnot (state s')) s') d2).
  { intros d2 Hc Hs. unfold mode_handling. rewrite led_at_store_eq by exact Hi.
    cbv zeta. rewrite Hc, Hm. reflexivity. }
  unfold poll_record. fold d. rewrite Hcb. cbv zeta.
  clearbody d. destruct d as [di c [p st k r ph ps dt] cb0 dcb].
  cbn [stat remain_tick next_tick] in Hr, Hk. subst r. record_norm.
  cbn [Z.eqb negb andb]. record_norm.
  destruct (k =? LED_BLOCK_FOREVER) eqn:Ek; [lia|].
  destruct (k =? 0) eqn:E0; cbn [negb andb orb].
  - rewrite Hmh by reflexivity. record_norm.
    destruct (st =? LED_STATE_OFF); reflexivity.
  - record_norm. destruct (k - 1 =? 0) eqn:E1; cbn [negb]; [|reflexivity].
    rewrite Hmh by reflexivity. record_norm.
    destruct (st =? LED_STATE_OFF); reflexivity.
Qed.

Lemma blink_first_tick `{Platform} d cb a b :
  set_percent_cb d = Some cb -> tick_mode (cfg d) = LED_MODE_BLINK ->
  on_tick (cfg d) = a -> off_tick (cfg d) = b ->
  0 <= a -> 0 <= b ->
  remain_tick (stat d) = 0 -> next_tick (stat d) = 0 ->
  state (stat d) = LED_STATE_OFF ->
  blink_at (solo_tick d) cb a b 0 /\ solo_calls d = blink_calls cb a b 0.
Proof.
  intros Hcb Hm Ha Hb Ha0 Hb0 Hr Hk Hs.
  pose proof (poll_record_blink [d] 0 cb) as E. cbv zeta in E.
  rewrite led_at_singleton in E.
  specialize (E ltac:(simpl; lia) Hcb Hm Hr
                ltac:(rewrite Hk; unfold LED_BLOCK_FOREVER; lia)).
  rewrite Hk, Hs, Ha in E. cbn [Z.eqb orb] in E.
  change (LED_STATE_OFF =? LED_STATE_OFF) with true in E. cbv iota in E.
  unfold solo_tick, solo_calls, blink_calls. rewrite E. cbn [fst snd].
  rewrite Z.mod_0_l by lia. cbn [Z.eqb]. split; [|reflexivity].
  split; record_norm; rewrite ?Z.mod_0_l by lia; try assumption.
  - rewrite Hs. destruct (0 <? Z.max a 1) eqn:E1; [reflexivity | lia].
  - destruct (0 <? Z.max a 1) eqn:E1; [reflexivity | lia].
  - cbv zeta. destruct (0 <? Z.max a 1) eqn:E1; [lia | lia].
Qed.

Lemma blink_next_tick `{Platform} d cb a b n :
  0 <= a < LED_BLOCK_FOREVER -> 0 <= b < LED_BLOCK_FOREVER ->
  blink_at d cb a b n ->
  blink_at (solo_tick d) cb a b (S n) /\ solo_calls d = blink_calls cb a b (S n).
Proof.
  intros Ha Hb [Hcb Hm Hon Hoff Hr Hs Hp Hk].
  set (P := Z.max a 1 + Z.max b 1) in *.
  assert (HP : 0 < P) by (unfold P; lia).
  pose proof (Z.mod_pos_bound (Z.of_nat n) P HP) as Hmb.
  set (m := Z.of_nat n mod P) in *. cbv zeta in Hk.
  pose proof (poll_record_blink [d] 0 cb) as E. cbv zeta in E.
  rewrite led_at_singleton in E.
  assert (HkF : next_tick (stat d) <> LED_BLOCK_FOREVER).
  { rewrite Hk. destruct (m <? Z.max a 1) eqn:E1; lia. }
  specialize (E ltac:(simpl; lia) Hcb Hm Hr HkF).
  assert (ES : Z.of_nat (S n) = Z.of_nat n + 1) by lia.
  unfold solo_tick, solo_calls, blink_calls. rewrite E. clear E.
  fold P. rewrite ES.
  assert (Hfin : forall d',
            set_percent_cb d' = Some cb -> tick_mode (cfg d') = LED_MODE_BLINK ->
            on_tick (cfg d') = a -> off_tick (cfg d') = b ->
            remain_tick (stat d') = 0 ->
            state (stat d')
            = (if (Z.of_nat n + 1) mod P <? Z.max a 1
               then LED_STATE_ON else LED_STATE_OFF) ->
            percent (stat d')
            = (if (Z.of_nat n + 1) mod P <? Z.max a 1
               then LED_MAX_BRIGHTNESS else LED_MIN_BRIGHTNESS) ->
            next_tick (stat d')
            = (if (Z.of_nat n + 1) mod P <? Z.max a 1
               then a - (Z.of_nat n + 1) mod P
               else b - ((Z.of_nat n + 1) mod P - Z.max a 1)) ->
            blink_at d' cb a b (S n)).
  { intros d' F1 F2 F3 F4 F5 F6 F7 F8.
    split; try assumption; cbv zeta; fold P; rewrite ES; assumption. }
  destruct (mod_succ P (Z.of_nat n) HP ltac:(lia)) as [[E1 E2] | [E1 E2]];
    fold m in E1, E2; rewrite E1, Hk, Hon, Hoff.
  - (* the period wraps: the off phase ends *)
    destruct (m <? Z.max a 1) eqn:Em; [unfold P in *; lia|].
    assert (Hd : (b - (m - Z.max a 1) =? 0) || (b - (m - Z.max a 1) - 1 =? 0) = true).
    { apply orb_true_iff. destruct (decide (b = 0)); [left | right];
        apply Z.eqb_eq; unfold P in *; lia. }
    rewrite Hd, Hs. change (LED_STATE_OFF =? LED_STATE_OFF) with true. cbv iota.
    cbn [fst snd Z.eqb]. split; [|reflexivity].
    apply Hfin; record_norm; try assumption; rewrite ?E1, ?Hs;
      destruct (0 <? Z.max a 1) eqn:E0; try reflexivity; lia.
  - destruct (m + 1 =? 0) eqn:Ez; [lia|].
    destruct (m <? Z.max a 1) eqn:Em.
    + (* on phase *)
      destruct (m + 1 =? Z.max a 1) eqn:Ee.
      * assert (Hd : (a - m =? 0) || (a - m - 1 =? 0) = true).
        { apply orb_true_iff. destruct (decide (a = 0)); [left | right];
            apply Z.eqb_eq; lia. }
        rewrite Hd, Hs. change (LED_STATE_ON =? LED_STATE_OFF) with false. cbv iota.
        cbn [fst snd]. split; [|reflexivity].
        apply Hfin; record_norm; try assumption; rewrite ?E1, ?Hs;
          destruct (m + 1 <? Z.max a 1) eqn:E0; try reflexivity; lia.
      * assert (Hd : (a - m =? 0) || (a - m - 1 =? 0) = false).
        { apply orb_false_iff. split; apply Z.eqb_neq; lia. }
        rewrite Hd. cbn [fst snd]. split; [|reflexivity].
        apply Hfin; record_norm; try assumption; rewrite ?E1, ?Hs, ?Hp;
          destruct (m + 1 <? Z.max a 1) eqn:E0; try reflexivity; lia.
    + (* off phase, not at its end *)
      destruct (m + 1 =? Z.max a 1) eqn:Ee; [lia|].
      assert (Hd : (b - (m - Z.max a 1) =? 0) || (b - (m - Z.max a 1) - 1 =? 0) = false).
      { apply orb_false_iff. split; apply Z.eqb_neq; unfold P in *; lia. }
      rewrite Hd. cbn [fst snd]. split; [|reflexivity].
      apply Hfin; record_norm; try assumption; rewrite ?E1, ?Hs, ?Hp;
        destruct (m + 1 <? Z.max a 1) eqn:E0; try reflexivity; lia.
Qed.

Lemma blink_solo `{Platform} d cb a b n :
  set_percent_cb d = Some cb -> tick_mode (cfg d) = LED_MODE_BLINK ->
  on_tick (cfg d) = a -> off_tick (cfg d) = b ->
  0 <= a < LED_BLOCK_FOREVER -> 0 <= b < LED_BLOCK_FOREVER ->
  remain_tick (stat d) = 0 -> next_tick (stat d) = 0 ->
  state (stat d) = LED_STATE_OFF ->
  blink_at (solo_ticks (S n) d) cb a b n
  /\ solo_calls (solo_ticks n d) = blink_calls cb a b n.
Proof.
  intros Hcb Hm Hon Hoff Ha Hb Hr Hk Hs.
  induction n as [|n [IH _]].
  - cbn [solo_ticks]. apply blink_first_tick; auto; lia.
  - change (solo_ticks (S (S n)) d) with (solo_tick (solo_ticks (S n) d)).
    apply blink_next_tick; assumption.
Qed.

(** X13: BLINK in general.  An initialized record configured with BLINK and
    32-bit on and off times repeats, for as long as its lifetime lasts, a
    period of [max on_tick 1] ticks at brightness 100 followed by
    [max off_tick 1] ticks at brightness 0, where [on_tick = on_ms / 100]
    and [off_tick = off_ms / 100]: the callback is invoked exactly at the
    two edges of each period, with the new brightness, and on no other
    tick.  An on or off time below one poll period thus still lasts one
    tick. *)
Theorem blink_schedule `{Platform} g id cb c n :
  length g = Z.to_nat LED_NUM -> 0 <= id < LED_NUM ->
  mode c = LED_MODE_BLINK ->
  0 <= on_ms c <= LED_BLOCK_FOREVER -> 0 <= off_ms c <= LED_BLOCK_FOREVER ->
  alive (duration_ms c / LED_POLL_PERIOD_MS) (S n) ->
  let a := on_ms c / LED_POLL_PERIOD_MS in
  let b := off_ms c / LED_POLL_PERIOD_MS in
  let m := Z.of_nat n mod (Z.max a 1 + Z.max b 1) in
  observed (S n) (configured g id cb c) id
  = (if m <? Z.max a 1 then LED_MAX_BRIGHTNESS else LED_MIN_BRIGHTNESS,
     if m <? Z.max a 1 then a - m else b - (m - Z.max a 1),
     if m =? 0 then [Call_set_percent cb LED_MAX_BRIGHTNESS]
     else if m =? Z.max a 1 then [Call_set_percent cb LED_MIN_BRIGHTNESS]
     else []).
Proof.
  intros Hlen Hid Hm Hon Hoff Hd a b m.
  pose proof (configured_slot g id cb c Hid Hlen) as Hs.
  assert (Hw : snd (write_record (mk_dev id inner_zero status_zero (Some cb) None) id c)
               = with_remain (duration_ms c / LED_POLL_PERIOD_MS)
                   (mk_dev id
                      (mk_inner (mode c) (alter_id c) a b
                         (fade_ms c / LED_POLL_PERIOD_MS)
                         (alternate_ms c / LED_POLL_PERIOD_MS)
                         (duration_ms c / LED_POLL_PERIOD_MS))
                      status_zero (Some cb) None)).
  { unfold write_record. rewrite Hm. reflexivity. }
  rewrite Hw in Hs. clear Hw.
  rewrite (observed_S _ id _ cb _ n Hid
             ltac:(rewrite configured_length; exact Hlen) Hs eq_refl
             ltac:(cbn; rewrite Hm; discriminate) Hd).
  assert (Ha : 0 <= a < LED_BLOCK_FOREVER).
  { unfold a, LED_POLL_PERIOD_MS, LED_BLOCK_FOREVER in *. split.
    - apply Z.div_pos; lia.
    - apply Z.div_lt_upper_bound; lia. }
  assert (Hb : 0 <= b < LED_BLOCK_FOREVER).
  { unfold b, LED_POLL_PERIOD_MS, LED_BLOCK_FOREVER in *. split.
    - apply Z.div_pos; lia.
    - apply Z.div_lt_upper_bound; lia. }
  match goal with
  | |- observed_solo (solo_ticks _ ?d, _) = _ =>
      destruct (blink_solo d cb a b n eq_refl Hm eq_refl eq_refl Ha Hb
                  eq_refl eq_refl eq_refl) as [[_ _ _ _ _ _ Hp Hk] Hc]
  end.
  unfold observed_solo. cbn [fst snd]. rewrite Hp, Hk, Hc. reflexivity.
Qed.

Lemma blink_schedule_witness :
  @observed saturating64 4
    (configured g_led_list_init LED_GREEN 1%positive
       (mk_cfg LED_MODE_BLINK 0 50 250 0 0 0)) LED_GREEN
  = (LED_MAX_BRIGHTNESS, 0, [Call_set_percent 1%positive LED_MAX_BRIGHTNESS]).
Proof.
  apply (@blink_schedule saturating64 g_led_list_init LED_GREEN 1%positive
           (mk_cfg LED_MODE_BLINK 0 50 250 0 0 0) 3);
    try reflexivity; cbn [on_ms off_ms duration_ms];
    unfold LED_GREEN, LED_NUM, LED_MAX, LED_BLOCK_FOREVER; try lia.
  left. reflexivity.
Defined.

(** ** Fades shorter than a poll period *)

Lemma poll_record_fade `{Platform} g i cb :
  let d := led_at g i in
  (Z.to_nat i < length g)%nat ->
  set_percent_cb d = Some cb ->
  tick_mode (cfg d) = LED_MODE_FADE_IN \/ tick_mode (cfg d) = LED_MODE_FADE_OUT ->
  remain_tick (stat d) = 0 -> next_tick (stat d) = 0 ->
  poll_record g i
  = (upd_stat (fade_handling (tick_mode (cfg d))) d,
     [Call_set_percent cb (percent (fade_handling (tick_mode (cfg d)) (stat d)))]).
Proof.
  intros d Hi Hcb Hm Hr Hn. unfold poll_record. fold d. rewrite Hcb, Hr.
  cbn [Z.eqb negb andb]. rewrite Hn. cbn [Z.eqb negb andb].
  unfold mode_handling. rewrite led_at_store_eq by exact Hi.
  destruct Hm as [Hm | Hm]; rewrite Hm; cbn [Z.eqb orb];
    destruct d as [di c s cb0 dcb]; reflexivity.
Qed.

(** The first dispatch of FADE_IN and of FADE_OUT, for each fade duration
    of at most one poll period. *)
Lemma short_fade_first_dispatch `{Platform} :
  forallb (fun ms =>
     let s_in := fade_handling LED_MODE_FADE_IN
                   (write_phase_setup (mk_cfg LED_MODE_FADE_IN 0 0 0 ms 0 0)
                      status_zero) in
     let s_out := fade_handling LED_MODE_FADE_OUT
                    (write_phase_setup (mk_cfg LED_MODE_FADE_OUT 0 0 0 ms 0 0)
                       status_zero) in
     (percent s_in =? LED_MAX_BRIGHTNESS) && (next_tick s_in =? LED_BLOCK_FOREVER)
     && (percent s_out =? LED_MIN_BRIGHTNESS) && (next_tick s_out =? LED_BLOCK_FOREVER))
    (map Z.of_nat (seq 0 101)) = true.
Proof. vm_compute. reflexivity. Qed.

Lemma short_fade_dispatch `{Platform} c :
  mode c = LED_MODE_FADE_IN \/ mode c = LED_MODE_FADE_OUT ->
  0 <= fade_ms c <= LED_POLL_PERIOD_MS ->
  let s := fade_handling (mode c) (write_phase_setup c status_zero) in
  percent s = (if mode c =? LED_MODE_FADE_IN then LED_MAX_BRIGHTNESS
               else LED_MIN_BRIGHTNESS)
  /\ next_tick s = LED_BLOCK_FOREVER.
Proof.
  intros Hm Hms. unfold LED_POLL_PERIOD_MS in Hms.
  pose proof (proj1 (forallb_forall _ _) short_fade_first_dispatch (fade_ms c)) as Hall.
  cbv beta zeta in Hall.
  assert (Hin : In (fade_ms c) (map Z.of_nat (seq 0 101))).
  { apply in_map_iff. exists (Z.to_nat (fade_ms c)). split; [lia|]. apply in_seq. lia. }
  apply Hall in Hin. clear Hall.
  apply andb_true_iff in Hin. destruct Hin as [Hin H4].
  apply andb_true_iff in Hin. destruct Hin as [Hin H3].
  apply andb_true_iff in Hin. destruct Hin as [H1 H2].
  apply Z.eqb_eq in H1, H2, H3, H4.
  destruct c as [m a on off fd al du]. cbn [mode fade_ms] in *.
  destruct Hm as [-> | ->]; cbn [Z.eqb]; split; assumption.
Qed.

(** X14: a FADE_IN or FADE_OUT whose fade time is at most one poll period
    (zero included) is over at the first tick.  That tick calls the
    callback once, with brightness 100 for FADE_IN and 0 for FADE_OUT, and
    blocks the record; for as long as the lifetime lasts, the brightness
    stays there and no further call is made. *)
Theorem short_fade_completes_at_first_tick `{Platform} g id cb c n :
  length g = Z.to_nat LED_NUM -> 0 <= id < LED_NUM ->
  mode c = LED_MODE_FADE_IN \/ mode c = LED_MODE_FADE_OUT ->
  0 <= fade_ms c <= LED_POLL_PERIOD_MS ->
  alive (duration_ms c / LED_POLL_PERIOD_MS) (S n) ->
  let level := if mode c =? LED_MODE_FADE_IN then LED_MAX_BRIGHTNESS
               else LED_MIN_BRIGHTNESS in
  observed (S n) (configured g id cb c) id
  = (level, LED_BLOCK_FOREVER,
     match n with O => [Call_set_percent cb level] | S _ => [] end).
Proof.
  intros Hlen Hid Hm Hms Hd level.
  pose proof (configured_slot g id cb c Hid Hlen) as Hs.
  set (icfg := mk_inner (mode c) (alter_id c)
                 (on_ms c / LED_POLL_PERIOD_MS) (off_ms c / LED_POLL_PERIOD_MS)
                 (fade_ms c / LED_POLL_PERIOD_MS)
                 (alternate_ms c / LED_POLL_PERIOD_MS)
                 (duration_ms c / LED_POLL_PERIOD_MS)).
  set (d := mk_dev id icfg (write_phase_setup c status_zero) (Some cb) None).
  assert (Hw : snd (write_record (mk_dev id inner_zero status_zero (Some cb) None) id c)
               = with_remain (duration_ms c / LED_POLL_PERIOD_MS) d).
  { unfold write_record, d, icfg. cbv zeta.
    destruct Hm as [Hm | Hm]; rewrite Hm; cbn [Z.eqb orb snd];
      unfold write_phase_setup; rewrite Hm; cbn [Z.eqb]; reflexivity. }
  rewrite Hw in Hs. clear Hw.
  assert (Hmd : tick_mode (cfg d) = mode c) by reflexivity.
  rewrite (observed_S _ id d cb _ n Hid
             ltac:(rewrite configured_length; exact Hlen) Hs eq_refl
             ltac:(rewrite Hmd; destruct Hm as [-> | ->]; discriminate) Hd).
  destruct (write_phase_setup_frame c status_zero) as (Wr & Wn & _).
  assert (Hd0 : with_remain 0 d = d).
  { rewrite <- (with_remain_same d) at 2. unfold d at 2. cbn [stat]. now rewrite Wr. }
  rewrite Hd0.
  destruct (short_fade_dispatch c Hm Hms) as [Hp Hk]. cbv zeta in Hp, Hk.
  fold level in Hp.
  pose proof (poll_record_fade [d] 0 cb) as E. cbv zeta in E.
  rewrite led_at_singleton in E.
  specialize (E ltac:(simpl; lia) eq_refl ltac:(rewrite Hmd; exact Hm) Wr Wn).
  rewrite Hmd in E. change (stat d) with (write_phase_setup c status_zero) in E.
  rewrite Hp in E.
  set (d1 := upd_stat (fade_handling (mode c)) d) in *.
  assert (H1r : remain_tick (stat d1) = 0).
  { unfold d1, d. cbn [upd_stat stat].
    rewrite (proj1 (fade_handling_frame _ _)). exact Wr. }
  assert (H1k : next_tick (stat d1) = LED_BLOCK_FOREVER) by exact Hk.
  assert (H1p : percent (stat d1) = level) by exact Hp.
  assert (Hfix : forall k, solo_ticks (S k) d = d1).
  { induction k as [|k IH].
    - cbn [solo_ticks]. unfold solo_tick. now rewrite E.
    - change (solo_ticks (S (S k)) d) with (solo_tick (solo_ticks (S k) d)).
      rewrite IH. unfold solo_tick.
      rewrite poll_record_blocked by (rewrite led_at_singleton; assumption).
      apply led_at_singleton. }
  unfold observed_solo. cbn [fst snd]. rewrite Hfix, H1p, H1k.
  destruct n as [|n].
  - cbn [solo_ticks]. unfold solo_calls. now rewrite E.
  - rewrite Hfix. unfold solo_calls.
    rewrite poll_record_blocked by (rewrite led_at_singleton; assumption).
    reflexivity.
Qed.

Lemma short_fade_completes_at_first_tick_witness :
  @observed saturating64 1
    (configured g_led_list_init LED_RED 3%positive
       (mk_cfg LED_MODE_FADE_OUT 0 0 0 0 0 0)) LED_RED
  = (LED_MIN_BRIGHTNESS, LED_BLOCK_FOREVER,
     [Call_set_percent 3%positive LED_MIN_BRIGHTNESS]).
Proof.
  apply (@short_fade_completes_at_first_tick saturating64 g_led_list_init LED_RED
           3%positive (mk_cfg LED_MODE_FADE_OUT 0 0 0 0 0 0) 0).
  - reflexivity.
  - unfold LED_RED, LED_NUM, LED_MAX. lia.
  - right. reflexivity.
  - cbn [fade_ms]. unfold LED_POLL_PERIOD_MS. lia.
  - left. reflexivity.
Defined.

(** ** ALTERNATE with a peer outside the registry *)

Lemma poll_record_no_peer `{Platform} g i cb :
  let d := led_at g i in
  (Z.to_nat i < length g)%nat ->
  set_percent_cb d = Some cb -> tick_mode (cfg d) = LED_MODE_ALTERNATE ->
  LED_NUM <= tick_alter_id (cfg d) ->
  remain_tick (stat d) <> 1 -> next_tick (stat d) = 0 ->
  poll_record g i
  = (with_remain (if remain_tick (stat d) =? 0 then 0 else remain_tick (stat d) - 1) d,
     [Call_set_percent cb (percent (stat d))]).
Proof.
  intros d Hi Hcb Hm Hp Hr Hn.
  assert (Hmh : forall d2, cfg d2 = cfg d ->
            mode_handling (led_store g i d2) i = d2).
  { intros d2 Hc. unfold mode_handling. rewrite led_at_store_eq by exact Hi.
    cbv zeta. rewrite Hc, Hm. cbn [Z.eqb orb].
    destruct (LED_NUM <=? tick_alter_id (cfg d)) eqn:E; [reflexivity | lia]. }
  unfold poll_record. fold d. rewrite Hcb. cbv zeta.
  clearbody d. destruct d as [di c [p st k r ph ps dt] cb0 dcb].
  cbn [stat remain_tick next_tick] in Hr, Hn. subst k. record_norm.
  destruct (r =? 0) eqn:E0; cbn [negb andb]; record_norm.
  - apply Z.eqb_eq in E0. subst r. cbn [Z.eqb negb andb].
    rewrite Hmh by reflexivity. reflexivity.
  - destruct (r - 1 =? 0) eqn:E1; [lia|]. cbn [Z.eqb negb andb].
    rewrite Hmh by reflexivity. reflexivity.
Qed.

(** X15: ALTERNATE with a peer identifier outside the registry.  The write
    accepts it.  The handler then neither schedules nor toggles: for as
    long as the lifetime lasts the record stays off at brightness 0 with
    no countdown, and every tick calls the brightness callback with 0. *)
Theorem alternate_without_peer_calls_every_tick `{Platform} g id cb c n :
  length g = Z.to_nat LED_NUM -> 0 <= id < LED_NUM ->
  mode c = LED_MODE_ALTERNATE -> LED_NUM <= alter_id c ->
  alive (duration_ms c / LED_POLL_PERIOD_MS) (S n) ->
  let g0 := configured g id cb c in
  fst (lite_led_write (snd (lite_led_init g id (Some cb))) id (Some c)) = LED_ERROR_NONE
  /\ observed (S n) g0 id
     = (LED_MIN_BRIGHTNESS, 0, [Call_set_percent cb LED_MIN_BRIGHTNESS])
  /\ state (stat (led_at (ticks (S n) g0) id)) = LED_STATE_OFF.
Proof.
  intros Hlen Hid Hm Hp Hd g0.
  assert (Hlen0 : length g0 = Z.to_nat LED_NUM)
    by (unfold g0; rewrite configured_length; exact Hlen).
  pose proof (configured_slot g id cb c Hid Hlen) as Hs. fold g0 in Hs.
  set (r := duration_ms c / LED_POLL_PERIOD_MS) in *.
  set (d := mk_dev id
              (mk_inner (mode c) (alter_id c)
                 (on_ms c / LED_POLL_PERIOD_MS) (off_ms c / LED_POLL_PERIOD_MS)
                 (fade_ms c / LED_POLL_PERIOD_MS)
                 (alternate_ms c / LED_POLL_PERIOD_MS) r)
              status_zero (Some cb) None).
  assert (Hne : (id =? alter_id c) = false) by (apply Z.eqb_neq; lia).
  assert (Hw : write_record (mk_dev id inner_zero status_zero (Some cb) None) id c
               = (LED_ERROR_NONE, with_remain r d)).
  { unfold write_record, d. cbv zeta. rewrite Hm, Hne. reflexivity. }
  rewrite Hw in Hs. cbn [snd] in Hs.
  assert (Hinv : forall k, alive r k ->
            led_at (ticks k g0) id = with_remain (lifetime_left r k) d).
  { induction k as [|k IH]; intros Hk.
    - cbn [ticks]. rewrite Hs. unfold lifetime_left.
      destruct (r =? 0) eqn:E; [apply Z.eqb_eq in E; now rewrite E|].
      now rewrite Z.sub_0_r.
    - assert (Hk' : alive r k) by (destruct Hk; [left | right]; lia).
      specialize (IH Hk').
      rewrite ticks_S_record by assumption.
      pose proof (poll_record_no_peer (seen_by (ticks k g0) id) id cb) as E.
      cbv zeta in E. rewrite seen_by_self, IH in E by lia.
      rewrite E; try reflexivity; try exact Hm; try exact Hp.
      + cbn [fst]. unfold with_remain, lifetime_left, d. record_norm.
        destruct Hk as [Hk | Hk].
        * rewrite Hk. reflexivity.
        * destruct (r =? 0) eqn:E0; [lia|].
          destruct (r - Z.of_nat k =? 0) eqn:E1; [lia|].
          do 2 f_equal. lia.
      + rewrite seen_by_length, ticks_length. lia.
      + unfold with_remain, lifetime_left, d. record_norm.
        destruct Hk as [Hk | Hk]; [rewrite Hk; discriminate|].
        destruct (r =? 0) eqn:E0; lia. }
  split; [|split].
  - destruct (init_slot g id cb Hid Hlen) as [Hi Hsl].
    destruct (write_slot (snd (lite_led_init g id (Some cb))) id c) as [Hws _].
    + exact Hid.
    + rewrite Hi. cbn [snd]. rewrite length_led_store. exact Hlen.
    + rewrite Hws, Hsl, Hw. reflexivity.
  - unfold observed. rewrite (Hinv (S n) Hd).
    rewrite tick_calls_S by exact Hid.
    assert (Hn : alive r n) by (destruct Hd; [left | right]; lia).
    pose proof (poll_record_no_peer (seen_by (ticks n g0) id) id cb) as E.
    cbv zeta in E. rewrite seen_by_self, (Hinv n Hn) in E by lia.
    rewrite E; try reflexivity; try exact Hm; try exact Hp.
    + rewrite seen_by_length, ticks_length. lia.
    + unfold with_remain, lifetime_left, d. record_norm.
      destruct Hd as [Hk | Hk]; [rewrite Hk; discriminate|].
      destruct (r =? 0) eqn:E0; lia.
  - rewrite (Hinv (S n) Hd). reflexivity.
Qed.

Lemma alternate_without_peer_calls_every_tick_witness :
  @observed saturating64 7
    (configured g_led_list_init LED_BLUE 2%positive
       (mk_cfg LED_MODE_ALTERNATE LED_INVALID 0 0 0 500 0)) LED_BLUE
  = (LED_MIN_BRIGHTNESS, 0, [Call_set_percent 2%positive LED_MIN_BRIGHTNESS]).
Proof.
  apply (@alternate_without_peer_calls_every_tick saturating64 g_led_list_init LED_BLUE
           2%positive (mk_cfg LED_MODE_ALTERNATE LED_INVALID 0 0 0 500 0) 6).
  - reflexivity.
  - unfold LED_BLUE, LED_NUM, LED_MAX. lia.
  - reflexivity.
  - cbn [alter_id]. unfold LED_INVALID, LED_NUM, LED_MAX. lia.
  - left. reflexivity.
Defined.
